(** * The chat core of diplicity ([game/chat.go]): channels, messages, listings

    A shallow embedding of the Go source.  Participant sets ([Nations]) are
    lists of byte strings; datastore keys are a small inductive type; the
    App Engine datastore is a record of finite maps together with an oracle
    for the failures its calls may report; the three handlers
    ([createMessage], [listMessages], [listChannels]) are functions from a
    request and a store to a response (and, for the write path, a new store). *)

From Stdlib Require Import ZArith String Ascii List Permutation Lia.
From stdpp Require Import base list sorting strings pretty gmap.

Set Warnings "-register-all".
Local Open Scope Z_scope.

(** ** Go values *)

(** [error] values.  [Errorf] stands for [fmt.Errorf] and for every opaque
    error of the datastore; [ErrNoSuchEntity] is the sentinel the code
    compares against; [MultiError] is [appengine.MultiError], a slice of
    errors whose entries may be nil. *)
Inductive error :=
| Errorf (msg : string)
| ErrNoSuchEntity
| MultiError (errs : list (option error)).

(** A Go result pair [(v, err)]. *)
Inductive result (A : Type) :=
| Ok (a : A)
| Err (e : error).
Arguments Ok {A} a.
Arguments Err {A} e.

(** [time.Time], as an instant on the integer time line. *)
Definition Time := Z.

(** Go's [int] on the 64-bit platforms App Engine runs on. *)
Definition wrap_int (z : Z) : Z := (z + 2 ^ 63) mod 2 ^ 64 - 2 ^ 63.

(** ** [strings.Split] and [strings.Join] *)

(** [strings.Split(s, sep)] for a one-byte separator: the pieces of [s]
    between the occurrences of [sep]; a string without [sep] (the empty
    string too) gives the one-element slice holding it. *)
Fixpoint strings_Split (sep : ascii) (s : string) : list string :=
  match s with
  | EmptyString => [EmptyString]
  | String c rest =>
      if Ascii.eqb c sep then EmptyString :: strings_Split sep rest
      else match strings_Split sep rest with
           | piece :: pieces => String c piece :: pieces
           | [] => [String c EmptyString]
           end
  end.

(** [strings.Join(a, sep)]. *)
Definition strings_Join (a : list string) (sep : string) : string :=
  String.concat sep a.

(** ** [Nations] *)

Definition Nation := string.
Definition Nations := list Nation.

Definition comma : ascii := ","%char.

(** [func (n *Nations) FromString(s string)] *)
Definition FromString (s : string) : Nations :=
  map (fun part : string => (part : Nation)) (strings_Split comma s).

(** [func (n Nations) Includes(m dip.Nation) bool] *)
Fixpoint Includes (n : Nations) (m : Nation) : bool :=
  match n with
  | [] => false
  | x :: rest => if String.eqb x m then true else Includes rest m
  end.

(** [func (n Nations) Less(i, j int) bool], on the two elements compared. *)
Definition Less (a b : Nation) : bool := String.ltb a b.

(** [func (n Nations) String() string] *)
Definition Nations_String (n : Nations) : string :=
  strings_Join (map (fun x : Nation => (x : string)) n) ",".

(** [sort.Sort] on a [Nations] value.  [Less] is the strict part of a total
    order on byte strings, so the sorted slice is the one ascending
    arrangement of the elements, whatever algorithm the library runs; it is
    computed here by insertion, as [sort.Sort] does on short slices. *)
Fixpoint sort_insert (x : Nation) (sorted : Nations) : Nations :=
  match sorted with
  | [] => [x]
  | y :: rest => if Less x y then x :: y :: rest else y :: sort_insert x rest
  end.

Definition sort_Sort (n : Nations) : Nations := foldr sort_insert [] n.

(** [func (n Nations) Len() int] *)
Definition Len (n : Nations) : Z := Z.of_nat (length n).

(** [func (n Nations) Swap(i, j int)]: [n[i], n[j] = n[j], n[i]], on the
    slice as a value; [None] where an index is out of range and Go panics. *)
Definition Swap (n : Nations) (i j : nat) : option Nations :=
  match n !! i, n !! j with
  | Some a, Some b => Some (<[j := a]> (<[i := b]> n))
  | _, _ => None
  end.

(** ** Datastore keys *)

Inductive Key :=
| mkKey (kind : string) (stringID : string) (intID : Z) (parent : option Key).

Definition Key_kind (k : Key) : string := let 'mkKey kd _ _ _ := k in kd.
Definition StringID (k : Key) : string := let 'mkKey _ s _ _ := k in s.
Definition IntID (k : Key) : Z := let 'mkKey _ _ i _ := k in i.
Definition Parent (k : Key) : option Key := let 'mkKey _ _ _ p := k in p.

(** [datastore.NewKey(ctx, kind, stringID, intID, parent)].  The application
    id and namespace taken from [ctx] are the same for every key of the
    application and are left out. *)
Definition datastore_NewKey (kind stringID : string) (intID : Z)
    (parent : option Key) : Key :=
  mkKey kind stringID intID parent.

Definition messageKind : string := "Message".
Definition channelKind : string := "Channel".

(** [fmt.Sprintf("%d:%s", id, s)] *)
Definition Sprintf_d_s (id : Z) (s : string) : string :=
  pretty id +:+ ":" +:+ s.

(** [func ChannelID(ctx, gameID, members)]: a key and a nil error, or a nil
    key and an error. *)
Definition ChannelID (gameID : option Key) (members : Nations) : result Key :=
  match gameID with
  | None => Err (Errorf "channels must have games and > 1 members")
  | Some g =>
      if (Z.of_nat (length members) <? 2)
      then Err (Errorf "channels must have games and > 1 members")
      else if (IntID g =? 0)
      then Err (Errorf "gameIDs must have int IDs")
      else Ok (datastore_NewKey channelKind
                 (Sprintf_d_s (IntID g) (Nations_String members)) 0 None)
  end.

(** Keys are compared and used as map keys through their path from the
    root, the list of (kind, string id, int id) triples. *)
Fixpoint Key_path (k : Key) : list (string * string * Z) :=
  match k with
  | mkKey kd s i p =>
      (kd, s, i) :: match p with Some q => Key_path q | None => [] end
  end.

Fixpoint Key_of_path (l : list (string * string * Z)) : option Key :=
  match l with
  | [] => None
  | (kd, s, i) :: rest => Some (mkKey kd s i (Key_of_path rest))
  end.

Fixpoint Key_of_path_path (k : Key) : Key_of_path (Key_path k) = Some k :=
  match k with
  | mkKey kd s i p =>
      match p return Key_of_path (Key_path (mkKey kd s i p))
                     = Some (mkKey kd s i p) with
      | Some q => f_equal (fun o => Some (mkKey kd s i o)) (Key_of_path_path q)
      | None => eq_refl
      end
  end.

#[global] Instance Key_eq_dec : EqDecision Key.
Proof.
  intros k1 k2. destruct (decide (Key_path k1 = Key_path k2)) as [E|N].
  - left. apply (inj Some).
    rewrite <- (Key_of_path_path k1), <- (Key_of_path_path k2). now rewrite E.
  - right. intros ->. now apply N.
Defined.

#[global] Instance Key_countable : Countable Key :=
  inj_countable Key_path Key_of_path Key_of_path_path.

(** [k] lies under [a]: [a] is [k] itself or one of its ancestors (what the
    [Ancestor] filter of a query selects). *)
Fixpoint HasAncestor (a : Key) (k : Key) : bool :=
  bool_decide (k = a) ||
  match k with
  | mkKey _ _ _ (Some p) => HasAncestor a p
  | mkKey _ _ _ None => false
  end.

(** ** Entities *)

(** [type NMessagesSince struct]; its counter is named [Since_NMessages]
    here, [NMessages] being the channel's own counter. *)
Record NMessagesSince := {
  Since : Time;
  Since_NMessages : Z;
}.

(** [type Channel struct].  [Channel_NMessagesSince] carries the tag
    [datastore:"-"]: it is never written to nor read from the store. *)
Record Channel := {
  Channel_GameID : option Key;
  Members : Nations;
  NMessages : Z;
  Channel_NMessagesSince : NMessagesSince;
}.

(** [type Message struct].  [ID] carries the tag [datastore:"-"]. *)
Record Message := {
  ID : option Key;
  GameID : option Key;
  ChannelMembers : Nations;
  Sender : Nation;
  Body : string;
  CreatedAt : Time;
}.

Definition Channels := list Channel.
Definition Messages := list Message.

(** The parts of [Game], [Member] and [auth.User] (declared in other files)
    that the chat code reads. *)
Record Game := { Variant : string }.
Record Member := { Member_Nation : Nation }.
Record User := { Id : string }.

(** Go zero values: what [&Channel{}], [&Game{}] and [&Member{}] hold
    before anything is loaded into them. *)
Definition zero_NMessagesSince : NMessagesSince :=
  {| Since := 0; Since_NMessages := 0 |}.
Definition zero_Channel : Channel :=
  {| Channel_GameID := None; Members := []; NMessages := 0;
     Channel_NMessagesSince := zero_NMessagesSince |}.
Definition zero_Game : Game := {| Variant := "" |}.
Definition zero_Member : Member := {| Member_Nation := "" |}.

(** What the store keeps of an entity: the fields not tagged
    [datastore:"-"]. *)
Definition stored_Channel (c : Channel) : Channel :=
  {| Channel_GameID := Channel_GameID c; Members := Members c;
     NMessages := NMessages c;
     Channel_NMessagesSince := zero_NMessagesSince |}.
Definition stored_Message (m : Message) : Message :=
  {| ID := None; GameID := GameID m; ChannelMembers := ChannelMembers m;
     Sender := Sender m; Body := Body m; CreatedAt := CreatedAt m |}.

(** ** The datastore *)

(** The entities by key, and the next integer id the store hands out for
    an incomplete key. *)
Record Datastore := {
  games : gmap Key Game;
  members : gmap Key Member;
  channels : gmap Key Channel;
  messages : gmap Key Message;
  nextID : Z;
}.

(** The failures the datastore reports besides "no such entity" (timeouts,
    contention, quota, ...): which call fails, and with which message. *)
Record Faults := {
  get_fault : Key -> option string;       (* Get of this key *)
  getmulti_fault : option string;         (* GetMulti as a whole *)
  put_fault : Key -> option string;       (* Put at this (maybe incomplete) key *)
  commit_fault : option string;           (* committing a transaction *)
  count_fault : Key -> option string;     (* Count of a query under this ancestor *)
  getall_fault : option string;           (* GetAll of a query *)
}.

Definition no_faults : Faults :=
  {| get_fault := fun _ => None; getmulti_fault := None;
     put_fault := fun _ => None; commit_fault := None;
     count_fault := fun _ => None; getall_fault := None |}.

(** [datastore.Get(ctx, key, channel)] *)
Definition datastore_Get_channel (F : Faults) (st : Datastore) (key : Key)
    : result Channel :=
  match get_fault F key with
  | Some msg => Err (Errorf msg)
  | None =>
      match channels st !! key with
      | Some c => Ok c
      | None => Err ErrNoSuchEntity
      end
  end.

(** [datastore.Put(ctx, key, channel)] with a complete key. *)
Definition datastore_Put_channel (F : Faults) (st : Datastore) (key : Key)
    (c : Channel) : result Datastore :=
  match put_fault F key with
  | Some msg => Err (Errorf msg)
  | None =>
      Ok {| games := games st; members := members st;
            channels := <[key := stored_Channel c]> (channels st);
            messages := messages st; nextID := nextID st |}
  end.

(** [datastore.NewIncompleteKey(ctx, kind, parent)] *)
Definition datastore_NewIncompleteKey (kind : string) (parent : option Key)
    : Key :=
  mkKey kind "" 0 parent.

(** [datastore.Put(ctx, incompleteKey, message)]: the store completes the
    key with the next free id and returns it. *)
Definition datastore_Put_message (F : Faults) (st : Datastore)
    (incomplete : Key) (m : Message) : result (Datastore * Key) :=
  match put_fault F incomplete with
  | Some msg => Err (Errorf msg)
  | None =>
      let key := mkKey (Key_kind incomplete) "" (nextID st) (Parent incomplete) in
      Ok ({| games := games st; members := members st;
             channels := channels st;
             messages := <[key := stored_Message m]> (messages st);
             nextID := nextID st + 1 |}, key)
  end.

(** [datastore.GetMulti(ctx, {gameID, memberID}, {game, member})]: the
    error (nil, an [appengine.MultiError] with one entry per key, or another
    error), and what [game] and [member] hold afterwards. *)
Definition datastore_GetMulti (F : Faults) (st : Datastore)
    (gameID memberID : Key) : option error * Game * Member :=
  match getmulti_fault F with
  | Some msg => (Some (Errorf msg), zero_Game, zero_Member)
  | None =>
      match games st !! gameID, members st !! memberID with
      | Some g, Some m => (None, g, m)
      | og, om =>
          (Some (MultiError
                   [ match og with Some _ => None | None => Some ErrNoSuchEntity end;
                     match om with Some _ => None | None => Some ErrNoSuchEntity end ]),
           default zero_Game og, default zero_Member om)
      end
  end.

(** The messages selected by
    [NewQuery(messageKind).Ancestor(a).Filter("CreatedAt>", since)]; without
    the filter when [since] is [None]. *)
Definition selected (a : Key) (since : option Time) (km : Key * Message) : bool :=
  HasAncestor a km.1 &&
  match since with
  | Some t => t <? CreatedAt km.2
  | None => true
  end.

Definition query_messages (st : Datastore) (a : Key) (since : option Time)
    : list Message :=
  (List.filter (selected a since) (map_to_list (messages st))).*2.

(** [q.Count(ctx)] *)
Definition datastore_Count (F : Faults) (st : Datastore) (a : Key)
    (since : Time) : result Z :=
  match count_fault F a with
  | Some msg => Err (Errorf msg)
  | None => Ok (Z.of_nat (length (query_messages st a (Some since))))
  end.

(** The order [Order("-CreatedAt")] asks for. *)
Definition newer_first (m1 m2 : Message) : Prop := CreatedAt m2 <= CreatedAt m1.

#[global] Instance newer_first_dec : RelDecision newer_first.
Proof. intros m1 m2. unfold newer_first. apply _. Defined.

(** [q.Order("-CreatedAt").GetAll(ctx, &messages)] *)
Definition datastore_GetAll_messages (F : Faults) (st : Datastore) (a : Key)
    (since : option Time) : result Messages :=
  match getall_fault F with
  | Some msg => Err (Errorf msg)
  | None => Ok (merge_sort newer_first (query_messages st a since))
  end.

(** [NewQuery(channelKind).Filter("GameID=", gameID)
      .Filter("Members=", nation).GetAll(ctx, &channels)]: an equality
    filter on the multi-valued property [Members] selects the entities one
    of whose values is [nation]. *)
Definition datastore_GetAll_channels (F : Faults) (st : Datastore)
    (gameID : Key) (nation : Nation) : result Channels :=
  match getall_fault F with
  | Some msg => Err (Errorf msg)
  | None =>
      Ok (List.filter
            (fun c => bool_decide (Channel_GameID c = Some gameID)
                      && Includes (Members c) nation)
            (map_to_list (channels st)).*2)
  end.

(** ** Requests and responses *)

(** What a handler reads from its [Request]: the authenticated user put
    there by the surrounding layer, the route and query parameters, what
    [Copy(message, r, "POST")] decodes of the body (the fields tagged
    [methods:"POST"]: [ChannelMembers] and [Body]), and the instant
    [time.Now()] returns during the call. *)
Record Request := {
  req_user : option User;
  req_game_id : string;
  req_channel_members : string;
  req_since : string;
  req_post : result (Nations * string);
  req_now : Time;
}.

(** How a handler ends: with content for the caller, with an HTTP error
    written by [http.Error] (the handler then returns nil), or by returning
    an error. *)
Inductive Response (A : Type) :=
| Content (a : A)
| HttpError (msg : string) (code : Z)
| Failed (e : error).
Arguments Content {A} a.
Arguments HttpError {A} msg code.
Arguments Failed {A} e.

(** What the code puts into an [Item] of goaeoas: the value it is made
    of, its name and its links. *)
Record Link := {
  Rel : string;
  Route : string;
  RouteParams : list string;
}.

Record Item (A : Type) := {
  item_properties : A;
  item_name : string;
  item_links : list Link;
}.
Arguments item_properties {A} _.
Arguments item_name {A} _.
Arguments item_links {A} _.

Notation "'try' x <- e ; k" :=
  (match e with Ok x => k | Err err => Failed err end)
  (at level 10, x name, e at level 100, k at level 200, only parsing).

(** ** Items *)

(** [func (c *Channel) ID(ctx)] *)
Definition Channel_ID (c : Channel) : result Key :=
  ChannelID (Channel_GameID c) (Members c).

Section Items.

(** [Key.Encode] of the datastore package and the route name
    [ListMessagesRoute] of the game package. *)
Variable Key_Encode : Key -> string.
Variable ListMessagesRoute : string.

(** [func (c *Channel) Item(r Request)]: the item for the channel,
    and the channel afterwards ([sort.Sort] works on its members in place).
    [None] where [c.GameID] is nil and [Encode] dereferences it. *)
Definition Channel_Item (c : Channel) : option (Item Channel * Channel) :=
  let c := {| Channel_GameID := Channel_GameID c;
              Members := sort_Sort (Members c); NMessages := NMessages c;
              Channel_NMessagesSince := Channel_NMessagesSince c |} in
  match Channel_GameID c with
  | None => None
  | Some gameID =>
      Some ({| item_properties := c;
               item_name := Nations_String (Members c);
               item_links :=
                 [{| Rel := "messages"; Route := ListMessagesRoute;
                     RouteParams := ["game_id"; Key_Encode gameID;
                                     "channel_members";
                                     Nations_String (Members c)] |}] |}, c)
  end.

End Items.

(** ** A small game, for examples *)

(** The roster of the classical variant, in the order of godip. *)
Definition classical : Nations :=
  ["Austria"; "England"; "France"; "Germany"; "Italy"; "Turkey"; "Russia"]%string.

Definition ex_Variants (variant : string) : Nations :=
  if String.eqb variant "Classical" then classical else [].

Definition ex_gameID : Key := mkKey "Game" "" 1 None.

Definition ex_DecodeKey (encoded : string) : result Key :=
  if String.eqb encoded "g1" then Ok ex_gameID
  else Err (Errorf "illegal base64 data").

Definition ex_MemberID (gameID : Key) (userID : string) : result Key :=
  Ok (mkKey "Member" userID 0 (Some gameID)).

Definition ex_time_Parse (s : string) : result Time :=
  if String.eqb s "1970-01-01T00:00:15Z" then Ok 15
  else Err (Errorf "parsing time: cannot parse").

Definition ex_member (userID : string) (nation : Nation) : Key * Member :=
  (mkKey "Member" userID 0 (Some ex_gameID), {| Member_Nation := nation |}).

Definition ex_EF : Key := mkKey channelKind "1:England,France" 0 None.
Definition ex_public : Key :=
  mkKey channelKind "1:Austria,England,France,Germany,Italy,Russia,Turkey" 0 None.

Definition ex_message (members : Nations) (sender : Nation) (body : string)
    (at_ : Time) : Message :=
  {| ID := None; GameID := Some ex_gameID; ChannelMembers := members;
     Sender := sender; Body := body; CreatedAt := at_ |}.

(** Alice plays England, Bob Germany, Carol France; England and France have
    exchanged two messages, and one message went to everybody. *)
Definition ex_store : Datastore :=
  {| games := {[ ex_gameID := {| Variant := "Classical" |} ]};
     members := list_to_map [ex_member "alice" "England";
                             ex_member "bob" "Germany";
                             ex_member "carol" "France"];
     channels :=
       list_to_map
         [(ex_EF, {| Channel_GameID := Some ex_gameID;
                     Members := ["England"; "France"]%string; NMessages := 2;
                     Channel_NMessagesSince := zero_NMessagesSince |});
          (ex_public, {| Channel_GameID := Some ex_gameID;
                         Members := sort_Sort classical; NMessages := 1;
                         Channel_NMessagesSince := zero_NMessagesSince |})];
     messages :=
       list_to_map
         [(mkKey messageKind "" 1 (Some ex_EF),
           ex_message ["England"; "France"]%string "England" "hello" 10);
          (mkKey messageKind "" 2 (Some ex_public),
           ex_message (sort_Sort classical) "Germany" "to all" 15);
          (mkKey messageKind "" 3 (Some ex_EF),
           ex_message ["England"; "France"]%string "France" "salut" 20)];
     nextID := 4 |}.

Definition ex_request (userID members since : string)
    (post : result (Nations * string)) : Request :=
  {| req_user := Some {| Id := userID |}; req_game_id := "g1";
     req_channel_members := members; req_since := since; req_post := post;
     req_now := 30 |}.

(** The example store without its game record. *)
Definition ex_store_without_game : Datastore :=
  {| games := ∅; members := members ex_store; channels := channels ex_store;
     messages := messages ex_store; nextID := nextID ex_store |}.

(** A store in which reading the channel of England and France times
    out, while every other call goes through. *)
Definition ex_Get_times_out : Faults :=
  {| get_fault := fun k => if bool_decide (k = ex_EF)
                           then Some "API error 5 (datastore_v3: TIMEOUT)"%string
                           else None;
     getmulti_fault := None; put_fault := fun _ => None; commit_fault := None;
     count_fault := fun _ => None; getall_fault := None |}.

(** A store in which counting the messages of England and France fails. *)
Definition ex_Count_fails : Faults :=
  {| get_fault := fun _ => None; getmulti_fault := None;
     put_fault := fun _ => None; commit_fault := None;
     count_fault := fun k => if bool_decide (k = ex_EF)
                             then Some "API error 4 (datastore_v3: NEED_INDEX)"%string
                             else None;
     getall_fault := None |}.

Section Handlers.

(** Code outside [chat.go]: the variant registry of godip
    ([variants.Variants[v].Nations], nil for an unknown variant),
    [datastore.DecodeKey], [MemberID] of the game package, and
    [time.Parse(time.RFC3339, _)]. *)
Variable Variants : string -> Nations.
Variable DecodeKey : string -> result Key.
Variable MemberID : Key -> string -> result Key.
Variable time_Parse : string -> result Time.

(** [func publicChannel(variant string) Nations] *)
Definition publicChannel (variant : string) : Nations :=
  sort_Sort (Variants variant).

(** The loop of [isPublic] over [range public], after the lengths were
    found equal. *)
Fixpoint same_at_each_index (members public : Nations) : bool :=
  match public, members with
  | [], _ => true
  | p :: public', m :: members' =>
      if String.eqb m p then same_at_each_index members' public' else false
  | _ :: _, [] => false
  end.

(** [func isPublic(variant string, members Nations) bool].  [sort.Sort]
    works in place, on the array the caller's slice points to: the second
    component is what the caller's [members] holds afterwards. *)
Definition isPublic (variant : string) (members : Nations) : bool * Nations :=
  let public := publicChannel variant in
  let members := sort_Sort members in
  if negb (length members =? length public)%nat then (false, members)
  else (same_at_each_index members public, members).

(** The [since] query parameter: absent, malformed, or an instant. *)
Definition parse_since (sinceParam : string) : result (option Time) :=
  if String.eqb sinceParam "" then Ok None
  else match time_Parse sinceParam with
       | Ok sinceTime => Ok (Some sinceTime)
       | Err e => Err e
       end.

(** The lookup both listing handlers start with: [game] and [member] are
    loaded with [GetMulti]; [nation] stays empty when only the member could
    not be loaded. *)
Definition load_requester (F : Faults) (st : Datastore)
    (gameID memberID : Key) : result (Nation * Game) :=
  match datastore_GetMulti F st gameID memberID with
  | (None, game, member) => Ok (Member_Nation member, game)
  | (Some (MultiError merr), game, _) =>
      match merr with
      | Some e0 :: _ => Err e0
      | _ => Ok (""%string, game)
      end
  | (Some e, _, _) => Err e
  end.

(** [func (c *Channel) CountSince(ctx, since) error]: the error, and the
    channel afterwards. *)
Definition CountSince (F : Faults) (st : Datastore) (c : Channel)
    (since : Time) : option error * Channel :=
  match ChannelID (Channel_GameID c) (Members c) with
  | Err e => (Some e, c)
  | Ok channelID =>
      match datastore_Count F st channelID since with
      | Err e => (Some e, c)
      | Ok count =>
          (None,
           {| Channel_GameID := Channel_GameID c; Members := Members c;
              NMessages := NMessages c;
              Channel_NMessagesSince :=
                {| Since := since; Since_NMessages := count |} |})
      end
  end.

(** *** The write path *)

(** The function [createMessage] hands to [datastore.RunInTransaction].
    An error of [datastore.Get] other than [ErrNoSuchEntity] is not looked
    at: [channel] then still holds its zero value. *)
Definition createMessage_tx (F : Faults) (st : Datastore) (channelID : Key)
    (gameID : Key) (message : Message) : result (Datastore * Message) :=
  let channel :=
    match datastore_Get_channel F st channelID with
    | Ok c => c
    | Err ErrNoSuchEntity =>
        {| Channel_GameID := Some gameID; Members := ChannelMembers message;
           NMessages := 0; Channel_NMessagesSince := zero_NMessagesSince |}
    | Err _ => zero_Channel
    end in
  match datastore_Put_message F st
          (datastore_NewIncompleteKey messageKind (Some channelID)) message with
  | Err e => Err e
  | Ok (st1, key) =>
      let message :=
        {| ID := Some key; GameID := GameID message;
           ChannelMembers := ChannelMembers message; Sender := Sender message;
           Body := Body message; CreatedAt := CreatedAt message |} in
      let channel :=
        {| Channel_GameID := Channel_GameID channel; Members := Members channel;
           NMessages := wrap_int (NMessages channel + 1);
           Channel_NMessagesSince := Channel_NMessagesSince channel |} in
      match datastore_Put_channel F st1 channelID channel with
      | Err e => Err e
      | Ok st2 => Ok (st2, message)
      end
  end.

(** [datastore.RunInTransaction(ctx, f, opts)]: the writes of [f] take
    effect together, when [f] returns nil and the commit goes through, and
    not at all otherwise. *)
Definition datastore_RunInTransaction {A : Type} (F : Faults)
    (f : result (Datastore * A)) : result (Datastore * A) :=
  match f with
  | Err e => Err e
  | Ok (st', a) =>
      match commit_fault F with
      | Some msg => Err (Errorf msg)
      | None => Ok (st', a)
      end
  end.

(** [func createMessage(w ResponseWriter, r Request)]: the store
    afterwards and the response. *)
Definition createMessage (F : Faults) (st : Datastore) (r : Request)
    : Datastore * Response Message :=
  match req_user r with
  | None => (st, HttpError "unauthorized" 401)
  | Some user =>
  match DecodeKey (req_game_id r) with
  | Err e => (st, Failed e)
  | Ok gameID =>
  match MemberID gameID (Id user) with
  | Err e => (st, Failed e)
  | Ok memberID =>
  match datastore_GetMulti F st gameID memberID with
  | (Some e, _, _) => (st, Failed e)
  | (None, game, member) =>
  match req_post r with
  | Err e => (st, Failed e)
  | Ok (channelMembers, body) =>
      let message :=
        {| ID := None; GameID := Some gameID;
           ChannelMembers := sort_Sort channelMembers;
           Sender := Member_Nation member; Body := body;
           CreatedAt := req_now r |} in
      if negb (Includes (ChannelMembers message) (Member_Nation member))
      then (st, HttpError "can only send messages to member channels" 403)
      else if negb (forallb (Includes (Variants (Variant game)))
                      (ChannelMembers message))
      then (st, HttpError "unknown channel member" 400)
      else
        match ChannelID (Some gameID) (ChannelMembers message) with
        | Err e => (st, Failed e)
        | Ok channelID =>
            match datastore_RunInTransaction F
                    (createMessage_tx F st channelID gameID message) with
            | Err e => (st, Failed e)
            | Ok (st', message) => (st', Content message)
            end
        end
  end end end end end.

(** *** The read path *)

(** [func listMessages(w ResponseWriter, r Request) error]; the content is
    what [messages.Item(r, gameID, channelMembers)] is built from.  In
    [!channelMembers.Includes(nation) && !isPublic(...)] the right operand
    runs only when the left one holds, and it sorts [channelMembers]. *)
Definition listMessages (F : Faults) (st : Datastore) (r : Request)
    : Response (Messages * Nations) :=
  match req_user r with
  | None => HttpError "unauthorized" 401
  | Some user =>
      try gameID <- DecodeKey (req_game_id r);
      let channelMembers := FromString (req_channel_members r) in
      try since <- parse_since (req_since r);
      try memberID <- MemberID gameID (Id user);
      try requester <- load_requester F st gameID memberID;
      let '(nation, game) := requester in
      let '(refused, channelMembers) :=
        if negb (Includes channelMembers nation)
        then let '(public, sorted) := isPublic (Variant game) channelMembers in
             (negb public, sorted)
        else (false, channelMembers) in
      if refused then HttpError "can only list member channels" 403
      else
        try channelID <- ChannelID (Some gameID) channelMembers;
        try messages <- datastore_GetAll_messages F st channelID since;
        Content (messages, channelMembers)
  end.

(** *** Channel listing and the counting fan-out *)

(** The channels the requester may see: for an observer ([nation == ""])
    the public channel when the store has it, otherwise the channels
    [nation] is a member of. *)
Definition visible_channels (F : Faults) (st : Datastore) (gameID : Key)
    (nation : Nation) (game : Game) : result Channels :=
  if String.eqb nation ""
  then
    match ChannelID (Some gameID) (publicChannel (Variant game)) with
    | Err e => Err e
    | Ok channelID =>
        match datastore_Get_channel F st channelID with
        | Ok channel => Ok [channel]
        | Err ErrNoSuchEntity => Ok []
        | Err e => Err e
        end
    end
  else datastore_GetAll_channels F st gameID nation.

(** The fan-out: one goroutine per channel runs [CountSince] and sends its
    error (maybe nil) on [results]; the handler receives [len(channels)]
    times and keeps the non-nil errors in the order they arrive.
    [arrival] lists the goroutines (by index) in the order their sends are
    received. *)
Definition count_all (F : Faults) (st : Datastore) (since : Time)
    (channels : Channels) : list (option error * Channel) :=
  map (fun c => CountSince F st c since) channels.

Definition received_errors (outcomes : list (option error * Channel))
    (arrival : list nat) : list error :=
  omap (fun i => outcomes !! i ≫= fst) arrival.

(** [func listChannels(w ResponseWriter, r Request) error]; the content is
    the slice [channels.Item(r, gameID)] is built from. *)
Definition listChannels (F : Faults) (arrival : list nat) (st : Datastore)
    (r : Request) : Response Channels :=
  match req_user r with
  | None => HttpError "unauthorized" 401
  | Some user =>
      try gameID <- DecodeKey (req_game_id r);
      try memberID <- MemberID gameID (Id user);
      try since <- parse_since (req_since r);
      try requester <- load_requester F st gameID memberID;
      let '(nation, game) := requester in
      try channels <- visible_channels F st gameID nation game;
      match since with
      | Some since =>
          let outcomes := count_all F st since channels in
          let merr := received_errors outcomes arrival in
          if (0 <? length merr)%nat then Failed (MultiError (map Some merr))
          else Content (map snd outcomes)
      | None =>
          Content
            (map (fun c =>
                    {| Channel_GameID := Channel_GameID c; Members := Members c;
                       NMessages := NMessages c;
                       Channel_NMessagesSince :=
                         {| Since := Since (Channel_NMessagesSince c);
                            Since_NMessages := NMessages c |} |})
               channels)
      end
  end.

(** ** Vocabulary of the statements *)

(** How often the byte [c] occurs in [s]. *)
Fixpoint count_byte (c : ascii) (s : string) : nat :=
  match s with
  | EmptyString => 0%nat
  | String b rest => ((if Ascii.eqb b c then 1 else 0) + count_byte c rest)%nat
  end.

(** The byte [c] occurs in [s]. *)
Fixpoint contains_byte (c : ascii) (s : string) : bool :=
  match s with
  | EmptyString => false
  | String b rest => Ascii.eqb b c || contains_byte c rest
  end.

(** The request gets through the first part of a listing handler: a user is
    attached, the game key decodes to [gameID], the [since] parameter reads
    as [since], and the lookup of the requester gives [nation] and [game]. *)
Definition reaches_listing (F : Faults) (st : Datastore) (r : Request)
    (gameID : Key) (since : option Time) (nation : Nation) (game : Game)
    : Prop :=
  exists user memberID,
    req_user r = Some user
    /\ DecodeKey (req_game_id r) = Ok gameID
    /\ parse_since (req_since r) = Ok since
    /\ MemberID gameID (Id user) = Ok memberID
    /\ load_requester F st gameID memberID = Ok (nation, game).

(** The request gets through the first part of [createMessage]: a user is
    attached, the game key decodes, [game] and [member] are loaded, and the
    body decodes to the destination set [posted] and the text [body]. *)
Definition reaches_checks (F : Faults) (st : Datastore) (r : Request)
    (gameID : Key) (game : Game) (member : Member) (posted : Nations)
    (body : string) : Prop :=
  exists user memberID,
    req_user r = Some user
    /\ DecodeKey (req_game_id r) = Ok gameID
    /\ MemberID gameID (Id user) = Ok memberID
    /\ datastore_GetMulti F st gameID memberID = (None, game, member)
    /\ req_post r = Ok (posted, body).

(** The message [createMessage] builds from a request that got through its
    first part. *)
Definition new_message (r : Request) (gameID : Key) (member : Member)
    (posted : Nations) (body : string) : Message :=
  {| ID := None; GameID := Some gameID; ChannelMembers := sort_Sort posted;
     Sender := Member_Nation member; Body := body; CreatedAt := req_now r |}.

(** A stored message is well addressed: its sender is one of its channel
    members, and these all are on the roster of the variant of its game. *)
Definition message_valid (st : Datastore) (m : Message) : Prop :=
  Sender m ∈ ChannelMembers m
  /\ exists gameID game,
       GameID m = Some gameID
       /\ games st !! gameID = Some game
       /\ forall x, x ∈ ChannelMembers m -> x ∈ Variants (Variant game).

Definition messages_valid (st : Datastore) : Prop :=
  forall key m, messages st !! key = Some m -> message_valid st m.

(** The number of message records a channel key owns. *)
Definition owned_count (st : Datastore) (channelID : Key) : nat :=
  length (query_messages st channelID None).

(** Every channel record counts the messages stored under its key. *)
Definition counters_match (st : Datastore) : Prop :=
  forall k c, channels st !! k = Some c ->
    NMessages c = Z.of_nat (owned_count st k).

(** Channel records sit at channel keys, and every message record sits
    under the key of a channel record, at an id the store has handed out. *)
Record store_ok (st : Datastore) : Prop := {
  channel_keys : forall k c, channels st !! k = Some c ->
                   Key_kind k = channelKind /\ Parent k = None;
  message_keys : forall k m, messages st !! k = Some m ->
                   exists n p, k = mkKey messageKind "" n (Some p)
                               /\ n < nextID st
                               /\ is_Some (channels st !! p);
}.

(** Every counter can take [n] more increments before [int] overflows. *)
Definition headroom (n : nat) (st : Datastore) : Prop :=
  Z.of_nat n < 2 ^ 63
  /\ forall k c, channels st !! k = Some c ->
       0 <= NMessages c /\ NMessages c + Z.of_nat n < 2 ^ 63.

(** The calls of a list of requests, one after the other: the order in
    which the transactions of concurrent calls take effect. *)
Definition createMessages (F : Faults) (st : Datastore) (rs : list Request)
    : Datastore :=
  foldl (fun st r => (createMessage F st r).1) st rs.

(** The response is a message for the channel with key [k]. *)
Definition delivered_to (k : Key) (resp : Response Message) : bool :=
  match resp with
  | Content message =>
      match ChannelID (GameID message) (ChannelMembers message) with
      | Ok k' => bool_decide (k' = k)
      | Err _ => false
      end
  | _ => false
  end.

(** How many of the calls get through with a message for channel [k]. *)
Fixpoint deliveries (F : Faults) (st : Datastore) (rs : list Request)
    (k : Key) : nat :=
  match rs with
  | [] => 0%nat
  | r :: rs' =>
      let '(st', resp) := createMessage F st r in
      ((if delivered_to k resp then 1 else 0) + deliveries F st' rs' k)%nat
  end.

(** Every channel record sits at the key derived from its own game and
    members, and no member holds a comma. *)
Definition channels_keyed (st : Datastore) : Prop :=
  forall k c, channels st !! k = Some c ->
    ChannelID (Channel_GameID c) (Members c) = Ok k
    /\ Forall (fun x => contains_byte comma x = false) (Members c).

(** The request [r] with another body. *)
Definition with_post (r : Request) (post : result (Nations * string))
    : Request :=
  {| req_user := req_user r; req_game_id := req_game_id r;
     req_channel_members := req_channel_members r; req_since := req_since r;
     req_post := post; req_now := req_now r |}.

(** The cut-off of a listing, as a condition on a message. *)
Definition after_cutoff (since : option Time) (m : Message) : Prop :=
  match since with
  | Some t => t < CreatedAt m
  | None => True
  end.


(* ================================================================== *)
(** * Properties *)

(** ** Participant sets: splitting, joining, sorting *)

Lemma strings_Split_nonempty sep s : strings_Split sep s <> [].
Proof.
  destruct s as [|c s]; simpl; [discriminate|].
  destruct (Ascii.eqb c sep); [discriminate|].
  destruct (strings_Split sep s); discriminate.
Qed.

Lemma strings_Split_no_sep sep s :
  contains_byte sep s = false -> strings_Split sep s = [s].
Proof.
  induction s as [|c s IH]; simpl; [reflexivity|].
  intros [Hc Hs]%orb_false_iff. rewrite Hc, (IH Hs). reflexivity.
Qed.

Lemma strings_Split_app sep s1 s2 :
  contains_byte sep s1 = false ->
  strings_Split sep (s1 +:+ String sep s2) = s1 :: strings_Split sep s2.
Proof.
  induction s1 as [|c s1 IH]; simpl.
  - intros _. rewrite Ascii.eqb_refl. reflexivity.
  - intros [Hc Hs]%orb_false_iff. rewrite Hc.
    change (String.append s1 (String sep s2)) with (s1 +:+ String sep s2).
    rewrite (IH Hs). reflexivity.
Qed.

Lemma strings_Split_Join sep (l : list string) :
  l <> [] ->
  Forall (fun s => contains_byte sep s = false) l ->
  strings_Split sep (strings_Join l (String sep EmptyString)) = l.
Proof.
  unfold strings_Join. intros Hne Hall. induction Hall as [|s l Hs Hl IH].
  - congruence.
  - destruct l as [|s' l'].
    + simpl. apply strings_Split_no_sep, Hs.
    + change (String.concat (String sep "") (s :: s' :: l'))
        with (s +:+ String sep (String.concat (String sep "") (s' :: l'))).
      rewrite strings_Split_app by exact Hs.
      f_equal. apply IH. discriminate.
Qed.

Lemma strings_Join_Split sep s :
  strings_Join (strings_Split sep s) (String sep EmptyString) = s.
Proof.
  unfold strings_Join. induction s as [|c s IH]; [reflexivity|].
  simpl. destruct (Ascii.eqb_spec c sep) as [->|Hne].
  - pose proof (strings_Split_nonempty sep s) as Hnil.
    destruct (strings_Split sep s) as [|piece pieces]; [congruence|].
    change (String.concat (String sep "") ("" :: piece :: pieces))
      with (String sep (String.concat (String sep "") (piece :: pieces))).
    now rewrite IH.
  - destruct (strings_Split sep s) as [|piece pieces] eqn:E.
    + now destruct (strings_Split_nonempty sep s).
    + destruct pieces as [|piece' pieces].
      * simpl in *. now rewrite IH.
      * change (String.concat (String sep "") (String c piece :: piece' :: pieces))
          with (String c (String.concat (String sep "") (piece :: piece' :: pieces))).
        now rewrite IH.
Qed.

Lemma strings_Split_pieces sep s :
  Forall (fun piece => contains_byte sep piece = false) (strings_Split sep s)
  /\ length (strings_Split sep s) = S (count_byte sep s).
Proof.
  induction s as [|c s [IHfree IHlen]]; simpl.
  - split; [repeat constructor | reflexivity].
  - destruct (Ascii.eqb c sep) eqn:Hc.
    + split; [constructor; [reflexivity | exact IHfree] | simpl; now rewrite IHlen].
    + destruct (strings_Split sep s) as [|piece pieces].
      * discriminate IHlen.
      * inversion IHfree as [|? ? Hpiece Hpieces]; subst. split.
        -- constructor; [simpl; now rewrite Hc, Hpiece | exact Hpieces].
        -- exact IHlen.
Qed.

(** C10.  Serialising a participant set and reading it back gives the same
    sequence, provided it is not empty and no identifier holds a comma;
    [FromString] never yields an empty sequence, and reads the empty string
    as the one-element sequence holding the empty identifier. *)
Theorem FromString_String_roundtrip :
  (forall n : Nations,
      n <> [] ->
      Forall (fun x => contains_byte comma x = false) n ->
      FromString (Nations_String n) = n)
  /\ (forall s : string, FromString s <> [])
  /\ FromString "" = [""%string].
Proof.
  split; [|split].
  - intros n Hne Hall. unfold FromString, Nations_String.
    rewrite !map_id. apply strings_Split_Join; assumption.
  - intros s. unfold FromString. rewrite map_id. apply strings_Split_nonempty.
  - reflexivity.
Qed.

Lemma FromString_String_roundtrip_witness :
  FromString (Nations_String ["ENGLAND"; "FRANCE"; "GERMANY"]%string)
  = ["ENGLAND"; "FRANCE"; "GERMANY"]%string.
Proof.
  apply (proj1 FromString_String_roundtrip).
  - discriminate.
  - repeat constructor.
Defined.

Lemma Less_le a b : Less a b = true -> String.le a b.
Proof.
  unfold Less, String.ltb, String.le, String.leb.
  destruct (String.compare a b); simpl; intros H; try discriminate H; exact I.
Qed.

Lemma not_Less_le a b : Less a b = false -> String.le b a.
Proof.
  unfold Less, String.ltb, String.le, String.leb.
  rewrite (String.compare_antisym a b).
  destruct (String.compare b a); simpl; intros H; try discriminate H; exact I.
Qed.

Lemma sort_insert_Permutation x l : sort_insert x l ≡ₚ x :: l.
Proof.
  induction l as [|y l IH]; simpl; [reflexivity|].
  destruct (Less x y); [reflexivity|].
  rewrite IH. apply Permutation_swap.
Qed.

Lemma sort_Sort_Permutation l : sort_Sort l ≡ₚ l.
Proof.
  induction l as [|x l IH]; simpl; [reflexivity|].
  unfold sort_Sort in *. simpl. rewrite sort_insert_Permutation. now rewrite IH.
Qed.

Lemma sort_insert_Sorted x l :
  Sorted String.le l -> Sorted String.le (sort_insert x l).
Proof.
  induction 1 as [|y l Hl IH Hhd]; simpl.
  - repeat constructor.
  - destruct (Less x y) eqn:E.
    + constructor; [now constructor|]. constructor. now apply Less_le.
    + constructor; [exact IH|].
      destruct Hhd as [|z l' Hyz]; simpl.
      * constructor. now apply not_Less_le.
      * destruct (Less x z); constructor; [now apply not_Less_le | exact Hyz].
Qed.

Lemma sort_Sort_Sorted l : Sorted String.le (sort_Sort l).
Proof.
  induction l as [|x l IH]; [constructor|].
  unfold sort_Sort in *. simpl. now apply sort_insert_Sorted.
Qed.

(** Sorting forgets the order the elements came in. *)
Lemma sort_Sort_perm_eq l1 l2 : l1 ≡ₚ l2 -> sort_Sort l1 = sort_Sort l2.
Proof.
  intros HP. apply (Sorted_unique String.le); try apply sort_Sort_Sorted.
  now rewrite !sort_Sort_Permutation.
Qed.

Lemma sort_Sort_eq_perm l1 l2 : sort_Sort l1 = sort_Sort l2 -> l1 ≡ₚ l2.
Proof.
  intros E. rewrite <- (sort_Sort_Permutation l1), E. apply sort_Sort_Permutation.
Qed.

Lemma sort_Sort_length l : length (sort_Sort l) = length l.
Proof. apply Permutation_length, sort_Sort_Permutation. Qed.

Lemma Includes_elem_of n m : Includes n m = true <-> m ∈ n.
Proof.
  induction n as [|x n IH]; simpl.
  - split; [discriminate | intros H; inversion H].
  - destruct (String.eqb_spec x m) as [->|Hne].
    + split; [intros _; left | reflexivity].
    + rewrite IH. split; [now right|].
      intros H. inversion H; subst; [congruence | assumption].
Qed.

Lemma Includes_Permutation n1 n2 m : n1 ≡ₚ n2 -> Includes n1 m = Includes n2 m.
Proof.
  intros HP. apply eq_true_iff_eq. rewrite !Includes_elem_of. now rewrite HP.
Qed.

Lemma Includes_sort_Sort n m : Includes (sort_Sort n) m = Includes n m.
Proof. apply Includes_Permutation, sort_Sort_Permutation. Qed.

(** ** Channel key derivation *)




(** C9.  [ChannelID] returns an error exactly when the game key is nil, or
    its integer id is zero, or there are fewer than two members; on every
    other input it returns a key.  The error is one of the two values built
    with [fmt.Errorf]. *)
Theorem ChannelID_error_iff :
  forall (G : option Key) (M : Nations),
    let invalid :=
      G = None \/ (exists g, G = Some g /\ IntID g = 0) \/ (length M < 2)%nat in
    ((exists e, ChannelID G M = Err e) <-> invalid)
    /\ ((exists k, ChannelID G M = Ok k) <-> ~ invalid)
    /\ (forall e, ChannelID G M = Err e ->
          e = Errorf "channels must have games and > 1 members"
          \/ e = Errorf "gameIDs must have int IDs").
Proof.
  intros G M invalid. subst invalid. unfold ChannelID.
  destruct G as [g|].
  - destruct (Z.ltb_spec (Z.of_nat (length M)) 2) as [Hlt|Hge].
    + split; [|split].
      * split; [intros _; right; right; lia | intros _; eauto].
      * split; [intros [k Hk]; discriminate | intros H; exfalso; apply H; right; right; lia].
      * intros e [= <-]. now left.
    + destruct (Z.eqb_spec (IntID g) 0) as [Hz|Hnz].
      * split; [|split].
        -- split; [intros _; right; left; eauto | intros _; eauto].
        -- split; [intros [k Hk]; discriminate | intros H; exfalso; apply H; right; left; eauto].
        -- intros e [= <-]. now right.
      * split; [|split].
        -- split; [intros [e He]; discriminate|].
           intros [H|[(g' & [= <-] & Hz)|Hlen]]; [discriminate | contradiction | lia].
        -- split; [|intros _; eauto].
           intros _ [H|[(g' & [= <-] & Hz)|Hlen]]; [discriminate | contradiction | lia].
        -- intros e H. discriminate.
  - split; [|split].
    + split; [intros _; now left | intros _; eauto].
    + split; [intros [k Hk]; discriminate | intros H; exfalso; apply H; now left].
    + intros e [= <-]. now left.
Qed.

(** ** Visibility *)

Lemma same_at_each_index_eq (m p : Nations) :
  length m = length p -> same_at_each_index m p = true <-> m = p.
Proof.
  revert m. induction p as [|x p IH]; intros [|y m]; simpl; try discriminate.
  - intros _. split; reflexivity.
  - intros [= Hlen]. destruct (String.eqb_spec y x) as [->|Hne].
    + rewrite (IH m Hlen). split; [now intros -> | now intros [= ->]].
    + split; [discriminate | intros [= ? ?]; contradiction].
Qed.

Lemma isPublic_members variant m : (isPublic variant m).2 = sort_Sort m.
Proof. unfold isPublic. now destruct (negb _). Qed.

Lemma isPublic_true_iff variant m :
  (isPublic variant m).1 = true <-> sort_Sort m = publicChannel variant.
Proof.
  unfold isPublic.
  destruct (Nat.eqb_spec (length (sort_Sort m)) (length (publicChannel variant)))
    as [Hlen|Hlen]; simpl.
  - now apply same_at_each_index_eq.
  - split; [discriminate | intros E; now rewrite E in Hlen].
Qed.

(** The public channel is the one whose members are the roster of the
    variant, in any order. *)
Lemma isPublic_Permutation variant m :
  (isPublic variant m).1 = true <-> m ≡ₚ Variants variant.
Proof.
  rewrite isPublic_true_iff. unfold publicChannel.
  split; [apply sort_Sort_eq_perm | apply sort_Sort_perm_eq].
Qed.

(** What [listMessages] does once the requester is known. *)
Lemma listMessages_reached F st r gameID since nation game :
  reaches_listing F st r gameID since nation game ->
  listMessages F st r =
    let members := FromString (req_channel_members r) in
    if Includes members nation
    then try channelID <- ChannelID (Some gameID) members;
         try messages <- datastore_GetAll_messages F st channelID since;
         Content (messages, members)
    else if (isPublic (Variant game) members).1
    then try channelID <- ChannelID (Some gameID) (sort_Sort members);
         try messages <- datastore_GetAll_messages F st channelID since;
         Content (messages, sort_Sort members)
    else HttpError "can only list member channels" 403.
Proof.
  intros (user & memberID & Hu & Hg & Hs & Hm & Hl).
  unfold listMessages. rewrite Hu, Hg, Hs, Hm, Hl. simpl.
  destruct (Includes _ nation); simpl; [reflexivity|].
  pose proof (isPublic_members (Variant game) (FromString (req_channel_members r))) as E.
  destruct (isPublic _ _) as [public sorted]. simpl in E. subst sorted.
  simpl. now destruct public.
Qed.

(** X23.  The access check as the code has it.  Once the requester is
    known, [listMessages] answers 403 exactly when the nation string of the
    requester (the empty string when no member record was loaded) is not
    one of the identifiers read from [channel_members] and these are not a
    rearrangement of the roster of the game's variant; nobody is refused
    the public channel.  A member list that holds the empty identifier
    counts a requester without a nation among its members. *)
Theorem listMessages_forbidden_iff :
  forall F st r gameID since nation game,
    reaches_listing F st r gameID since nation game ->
    let members := FromString (req_channel_members r) in
    let public := sort_Sort members = publicChannel (Variant game) in
    ((exists msg, listMessages F st r = HttpError msg 403)
       <-> Includes members nation = false /\ ~ public)
    /\ (public -> forall msg code, listMessages F st r <> HttpError msg code).
Proof.
  intros F st r gameID since nation game Hreach members public.
  rewrite (listMessages_reached _ _ _ _ _ _ _ Hreach). fold members.
  cbv zeta. subst public. rewrite <- isPublic_true_iff.
  destruct (Includes members nation); [|destruct (isPublic _ members).1].
  - split.
    + split; [|intros [? _]; discriminate].
      intros [msg H]. destruct (ChannelID _ _); [|discriminate].
      destruct (datastore_GetAll_messages _ _ _ _); discriminate.
    + intros _ msg code. destruct (ChannelID _ _); [|discriminate].
      destruct (datastore_GetAll_messages _ _ _ _); discriminate.
  - split.
    + split; [|intros [_ H]; now contradiction H].
      intros [msg H]. destruct (ChannelID _ _); [|discriminate].
      destruct (datastore_GetAll_messages _ _ _ _); discriminate.
    + intros _ msg code. destruct (ChannelID _ _); [|discriminate].
      destruct (datastore_GetAll_messages _ _ _ _); discriminate.
  - split.
    + split; [intros _; split; [reflexivity | discriminate] | intros _; eauto].
    + discriminate.
Qed.

(** ** Message listing *)

#[local] Instance newer_first_trans : Transitive newer_first.
Proof. unfold newer_first. intros m1 m2 m3 ? ?. lia. Qed.

#[local] Instance newer_first_total : Total newer_first.
Proof. unfold newer_first. intros m1 m2. lia. Qed.

Lemma selected_iff a since k m :
  selected a since (k, m) = true <-> HasAncestor a k = true /\ after_cutoff since m.
Proof.
  unfold selected, after_cutoff. simpl. rewrite andb_true_iff.
  destruct since as [t|]; [rewrite Z.ltb_lt|]; intuition.
Qed.

(** The entities a message query selects: each stored message under the
    ancestor and after the cut-off, once. *)
Lemma query_messages_spec st a since :
  exists kms : list (Key * Message),
    query_messages st a since = kms.*2
    /\ NoDup kms.*1
    /\ forall k m, (k, m) ∈ kms <->
          messages st !! k = Some m /\ HasAncestor a k = true /\ after_cutoff since m.
Proof.
  exists (List.filter (selected a since) (map_to_list (messages st))).
  split; [reflexivity|]. split.
  - eapply sublist_NoDup; [apply (NoDup_fst_map_to_list (messages st))|].
    apply fmap_sublist. induction (map_to_list (messages st)) as [|x l IH]; simpl.
    + constructor.
    + destruct (selected a since x); now constructor.
  - intros k m. rewrite list_elem_of_In, filter_In, <- list_elem_of_In.
    now rewrite elem_of_map_to_list, selected_iff.
Qed.

(** X22.  The query as the code has it.  When the requester passes the
    access check, the key derives and the query goes through,
    [listMessages] returns the stored messages under the key derived from
    the members in the order the request spells them (sorted only when
    [isPublic] ran), whose [CreatedAt] is after the cut-off (all of them
    when there is none), each once, newest first. *)
Theorem listMessages_since_newest_first :
  forall F st r gameID since nation game channelID,
    reaches_listing F st r gameID since nation game ->
    let given := FromString (req_channel_members r) in
    let members := if Includes given nation then given else sort_Sort given in
    Includes given nation = true \/ sort_Sort given = publicChannel (Variant game) ->
    ChannelID (Some gameID) members = Ok channelID ->
    getall_fault F = None ->
    exists (messages_ : Messages) (kms : list (Key * Message)),
      listMessages F st r = Content (messages_, members)
      /\ StronglySorted newer_first messages_
      /\ messages_ ≡ₚ kms.*2
      /\ NoDup kms.*1
      /\ forall k m, (k, m) ∈ kms <->
            messages st !! k = Some m
            /\ HasAncestor channelID k = true
            /\ after_cutoff since m.
Proof.
  intros F st r gameID since nation game channelID Hreach given members
    Hmay Hkey Hfault.
  rewrite (listMessages_reached _ _ _ _ _ _ _ Hreach). fold given. cbv zeta.
  destruct (query_messages_spec st channelID since) as (kms & Hq & Hnd & Hin).
  exists (merge_sort newer_first (query_messages st channelID since)), kms.
  split; [|split; [|split; [|split]]]; try assumption.
  - subst members. destruct (Includes given nation) eqn:Hinc.
    + rewrite Hkey. unfold datastore_GetAll_messages. now rewrite Hfault.
    + destruct Hmay as [?|Hpub]; [discriminate|].
      apply isPublic_true_iff in Hpub. rewrite Hpub, Hkey.
      unfold datastore_GetAll_messages. now rewrite Hfault.
  - apply StronglySorted_merge_sort; apply _.
  - rewrite merge_sort_Permutation. now rewrite Hq.
Qed.

(** ** The write path: validation *)

Lemma forallb_Includes_false roster (l : Nations) :
  forallb (Includes roster) l = false <-> exists x, x ∈ l /\ x ∉ roster.
Proof.
  induction l as [|y l IH]; simpl.
  - split; [discriminate | intros (x & Hx & _); inversion Hx].
  - rewrite andb_false_iff, IH. split.
    + intros [Hy|(x & Hx & Hn)].
      * exists y. split; [left|]. rewrite <- Includes_elem_of. now rewrite Hy.
      * exists x. split; [now right | assumption].
    + intros (x & Hx & Hn). apply elem_of_cons in Hx as [->|Hx].
      * left. destruct (Includes roster y) eqn:E; [|reflexivity].
        now apply Includes_elem_of in E.
      * right. eauto.
Qed.

Lemma forallb_Includes_true roster (l : Nations) :
  forallb (Includes roster) l = true <-> forall x, x ∈ l -> x ∈ roster.
Proof.
  rewrite forallb_forall. split.
  - intros H x Hx. apply Includes_elem_of, H. now apply list_elem_of_In.
  - intros H x Hx. apply Includes_elem_of, H. now apply list_elem_of_In.
Qed.

(** What [createMessage] does once game, member and body are at hand. *)
Lemma createMessage_reached F st r gameID game member posted body :
  reaches_checks F st r gameID game member posted body ->
  createMessage F st r =
    let message := new_message r gameID member posted body in
    if negb (Includes (ChannelMembers message) (Member_Nation member))
    then (st, HttpError "can only send messages to member channels" 403)
    else if negb (forallb (Includes (Variants (Variant game)))
                    (ChannelMembers message))
    then (st, HttpError "unknown channel member" 400)
    else
      match ChannelID (Some gameID) (ChannelMembers message) with
      | Err e => (st, Failed e)
      | Ok channelID =>
          match datastore_RunInTransaction F
                  (createMessage_tx F st channelID gameID message) with
          | Err e => (st, Failed e)
          | Ok (st', message) => (st', Content message)
          end
      end.
Proof.
  intros (user & memberID & Hu & Hg & Hm & Hl & Hp).
  unfold createMessage. now rewrite Hu, Hg, Hm, Hl, Hp.
Qed.

(** The transaction, when it goes through: one message stored under a key
    of the channel, and the channel record rewritten. *)
Lemma createMessage_tx_Ok F st channelID gameID message st' message' :
  datastore_RunInTransaction F (createMessage_tx F st channelID gameID message)
    = Ok (st', message') ->
  let key := mkKey messageKind "" (nextID st) (Some channelID) in
  exists channel,
    message' = {| ID := Some key; GameID := GameID message;
                  ChannelMembers := ChannelMembers message;
                  Sender := Sender message; Body := Body message;
                  CreatedAt := CreatedAt message |}
    /\ games st' = games st
    /\ members st' = members st
    /\ messages st' = <[key := stored_Message message]> (messages st)
    /\ channels st' = <[channelID := channel]> (channels st)
    /\ nextID st' = nextID st + 1.
Proof.
  unfold datastore_RunInTransaction, createMessage_tx, datastore_Put_message,
    datastore_Put_channel, datastore_NewIncompleteKey. simpl.
  destruct (put_fault F (mkKey messageKind "" 0 (Some channelID))); [discriminate|].
  destruct (put_fault F channelID); [discriminate|].
  destruct (commit_fault F); [discriminate|].
  intros [= <- <-]. simpl. eexists. repeat split; reflexivity.
Qed.

(** Whatever the request, the messages in the store stay well addressed. *)
Lemma createMessage_preserves_messages_valid F st r :
  messages_valid st -> messages_valid (createMessage F st r).1.
Proof.
  intros Hvalid. unfold createMessage.
  destruct (req_user r) as [user|]; [|exact Hvalid].
  destruct (DecodeKey _) as [gameID|]; [|exact Hvalid].
  destruct (MemberID _ _) as [memberID|]; [|exact Hvalid].
  destruct (datastore_GetMulti _ _ _ _) as [[[e|] game] member] eqn:Hload;
    [exact Hvalid|].
  destruct (req_post r) as [[posted body]|]; [|exact Hvalid].
  cbv zeta. simpl ChannelMembers.
  destruct (negb (Includes _ _)) eqn:Hsender; [exact Hvalid|].
  destruct (negb (forallb _ _)) eqn:Hroster; [exact Hvalid|].
  destruct (ChannelID _ _) as [channelID|]; [|exact Hvalid].
  destruct (datastore_RunInTransaction _ _) as [[st' message']|] eqn:Htx;
    [|exact Hvalid].
  apply createMessage_tx_Ok in Htx as (channel & _ & Hgames & _ & Hmsgs & _ & _).
  simpl in *. intros key m. rewrite Hmsgs.
  assert (games st !! gameID = Some game) as Hgame.
  { unfold datastore_GetMulti in Hload.
    destruct (getmulti_fault F); [discriminate|].
    destruct (games st !! gameID), (members st !! memberID); congruence. }
  rewrite lookup_insert. case_decide as Hk.
  - intros [= <-]. split; simpl.
    + apply Includes_elem_of. now apply negb_false_iff in Hsender.
    + exists gameID, game. rewrite Hgames. repeat split; try assumption.
      now apply forallb_Includes_true, negb_false_iff.
  - intros Hm. destruct (Hvalid key m Hm) as (Hs & g & gm & ? & ? & ?).
    split; [assumption|]. exists g, gm. now rewrite Hgames.
Qed.

(** The two rejections of [createMessage], in the order it checks them. *)
Lemma createMessage_rejections F st r gameID game member posted body :
  reaches_checks F st r gameID game member posted body ->
  (Member_Nation member ∉ posted ->
     createMessage F st r
     = (st, HttpError "can only send messages to member channels" 403))
  /\ (Member_Nation member ∈ posted ->
      (exists x, x ∈ posted /\ x ∉ Variants (Variant game)) ->
      createMessage F st r = (st, HttpError "unknown channel member" 400)).
Proof.
  intros Hreach. rewrite (createMessage_reached _ _ _ _ _ _ _ _ Hreach).
  cbv zeta. simpl ChannelMembers. rewrite Includes_sort_Sort. split.
  - intros Hnot. destruct (Includes posted _) eqn:E; [|reflexivity].
    now apply Includes_elem_of in E.
  - intros Hin (x & Hx & Hn). apply Includes_elem_of in Hin. rewrite Hin. simpl.
    assert (forallb (Includes (Variants (Variant game))) (sort_Sort posted)
            = false) as ->; [|reflexivity].
    apply forallb_Includes_false. exists x. split; [|assumption].
    now rewrite sort_Sort_Permutation.
Qed.

(** C6 (amended).  Once game, member and body are at hand, [createMessage]
    answers 403 and leaves the store as it was when the sender's nation is
    not in the destination set; it answers 400 and leaves the store as it
    was when the sender is in the set and some member of the set is not on
    the roster of the game's variant; and so every message in the store
    keeps its sender among its channel members, and these on the roster. *)
Theorem createMessage_validates_destination :
  forall F st r gameID game member posted body,
    reaches_checks F st r gameID game member posted body ->
    let sender := Member_Nation member in
    let roster := Variants (Variant game) in
    (sender ∉ posted ->
       createMessage F st r
       = (st, HttpError "can only send messages to member channels" 403))
    /\ (sender ∈ posted -> (exists x, x ∈ posted /\ x ∉ roster) ->
          createMessage F st r = (st, HttpError "unknown channel member" 400))
    /\ (forall st' message,
          createMessage F st r = (st', Content message) ->
          Sender message ∈ ChannelMembers message
          /\ (forall x, x ∈ ChannelMembers message -> x ∈ roster)
          /\ exists key, ID message = Some key
                /\ messages st' !! key = Some (stored_Message message))
    /\ (messages_valid st -> messages_valid (createMessage F st r).1).
Proof.
  intros F st r gameID game member posted body Hreach sender roster.
  destruct (createMessage_rejections F st r gameID game member posted body
              Hreach) as (H403 & H400).
  split; [exact H403|]. split; [exact H400|].
  split; [|apply createMessage_preserves_messages_valid].
  rewrite (createMessage_reached _ _ _ _ _ _ _ _ Hreach).
  cbv zeta. simpl ChannelMembers. rewrite Includes_sort_Sort.
  fold sender. fold roster.
  intros st' message.
  { destruct (Includes posted sender) eqn:Hs; cbn [negb]; [|discriminate].
    destruct (forallb _ _) eqn:Hr; cbn [negb]; [|discriminate].
    destruct (ChannelID _ _) as [channelID|]; [|discriminate].
    destruct (datastore_RunInTransaction _ _) as [[st2 message2]|] eqn:Htx;
      [|discriminate].
    intros [= <- <-].
    apply createMessage_tx_Ok in Htx as (channel & -> & _ & _ & Hmsgs & _ & _).
    simpl. split; [|split].
    + rewrite sort_Sort_Permutation. now apply Includes_elem_of.
    + now apply forallb_Includes_true.
    + eexists. split; [reflexivity|]. rewrite Hmsgs. now rewrite lookup_insert_eq. }
Qed.

(** C8 (amended).  A call whose destination set holds an identifier that is
    not on the roster of the game's variant ends before the transaction,
    with the store as it was: with 400 when the sender is in the set, with
    403 when the sender is not. *)
Theorem createMessage_unregistered_member_no_mutation :
  forall F st r gameID game member posted body,
    reaches_checks F st r gameID game member posted body ->
    (exists x, x ∈ posted /\ x ∉ Variants (Variant game)) ->
    ((Member_Nation member ∈ posted)
     /\ createMessage F st r = (st, HttpError "unknown channel member" 400))
    \/ ((Member_Nation member ∉ posted)
        /\ createMessage F st r
           = (st, HttpError "can only send messages to member channels" 403)).
Proof.
  intros F st r gameID game member posted body Hreach Hunreg.
  destruct (createMessage_rejections F st r gameID game member posted body
              Hreach) as (H403 & H400).
  destruct (decide (Member_Nation member ∈ posted)) as [Hin|Hnot].
  - left. split; [assumption|]. now apply H400.
  - right. split; [assumption|]. now apply H403.
Qed.

(** ** The write path: the counter *)

Lemma filter_length_Permutation {A} (f : A -> bool) (l1 l2 : list A) :
  l1 ≡ₚ l2 -> length (List.filter f l1) = length (List.filter f l2).
Proof.
  induction 1 as [|x l1 l2 _ IH|x y l|l1 l2 l3 _ IH1 _ IH2]; simpl.
  - reflexivity.
  - destruct (f x); simpl; now rewrite IH.
  - destruct (f x), (f y); reflexivity.
  - now rewrite IH1.
Qed.

Lemma owned_count_insert st st' key m a :
  messages st !! key = None ->
  messages st' = <[key := m]> (messages st) ->
  owned_count st' a
  = if HasAncestor a key then S (owned_count st a) else owned_count st a.
Proof.
  intros Hnone Hins. unfold owned_count, query_messages.
  rewrite !length_fmap, Hins.
  rewrite (filter_length_Permutation _ _ _ (map_to_list_insert _ _ _ Hnone)).
  simpl. unfold selected at 1. simpl. rewrite andb_true_r.
  now destruct (HasAncestor a key).
Qed.

Lemma ChannelID_Ok_shape G M k :
  ChannelID G M = Ok k -> Key_kind k = channelKind /\ Parent k = None.
Proof.
  unfold ChannelID. destruct G as [g|]; [|discriminate].
  destruct (_ <? 2); [discriminate|]. destruct (_ =? 0); [discriminate|].
  intros [= <-]. split; reflexivity.
Qed.

Lemma HasAncestor_message_key a n channelID :
  Key_kind a = channelKind -> Parent a = None ->
  Key_kind channelID = channelKind -> Parent channelID = None ->
  HasAncestor a (mkKey messageKind "" n (Some channelID))
  = bool_decide (channelID = a).
Proof.
  intros Hka Hpa Hkc Hpc. destruct channelID as [kd s i p]. simpl in *. subst.
  rewrite orb_false_r.
  rewrite (bool_decide_eq_false_2 (mkKey messageKind "" n _ = a)); [reflexivity|].
  intros <-. discriminate Hka.
Qed.

Lemma wrap_int_small z : - 2 ^ 63 <= z < 2 ^ 63 -> wrap_int z = z.
Proof. intros H. unfold wrap_int. rewrite Z.mod_small; lia. Qed.

(** A call that gets through, when [datastore.Get] did not fail on the
    channel: one more message under the channel's key, the counter one
    higher (or 1, with the posted members, for a channel that was not
    there), every other channel as before. *)
Lemma createMessage_counts F st r st' message :
  store_ok st -> headroom 1 st ->
  createMessage F st r = (st', Content message) ->
  exists channelID,
    ChannelID (GameID message) (ChannelMembers message) = Ok channelID
    /\ owned_count st' channelID = S (owned_count st channelID)
    /\ (forall k, k <> channelID ->
          channels st' !! k = channels st !! k
          /\ (Key_kind k = channelKind -> Parent k = None ->
              owned_count st' k = owned_count st k))
    /\ (get_fault F channelID = None ->
          exists c',
            channels st' !! channelID = Some c'
            /\ match channels st !! channelID with
               | Some c => NMessages c' = NMessages c + 1
                           /\ Members c' = Members c
                           /\ Channel_GameID c' = Channel_GameID c
               | None => NMessages c' = 1
                         /\ Members c' = ChannelMembers message
                         /\ Channel_GameID c' = GameID message
               end)
    /\ store_ok st'.
Proof.
  intros [Hkeys Hmkeys] Hroom. unfold createMessage.
  destruct (req_user r) as [user|]; [|discriminate].
  destruct (DecodeKey _) as [gameID|]; [|discriminate].
  destruct (MemberID _ _) as [memberID|]; [|discriminate].
  destruct (datastore_GetMulti _ _ _ _) as [[[e|] game] member]; [discriminate|].
  destruct (req_post r) as [[posted body]|]; [|discriminate].
  cbv zeta. cbn [ChannelMembers].
  destruct (negb (Includes _ _)); [discriminate|].
  destruct (negb (forallb _ _)); [discriminate|].
  destruct (ChannelID _ _) as [channelID|] eqn:Hid; [|discriminate].
  destruct (datastore_RunInTransaction _ _) as [[st2 message2]|] eqn:Htx;
    [|discriminate].
  intros [= <- <-]. exists channelID.
  pose proof (ChannelID_Ok_shape _ _ _ Hid) as [Hkind Hparent].
  assert (messages st !! mkKey messageKind "" (nextID st) (Some channelID) = None)
    as Hnone.
  { destruct (messages st !! _) eqn:E; [|reflexivity].
    apply Hmkeys in E as (n & p & [= <- <-] & Hlt & _). lia. }
  pose proof Htx as Htx'.
  apply createMessage_tx_Ok in Htx' as (channel & -> & _ & _ & Hmsgs & Hchs & Hnext).
  cbn [GameID ChannelMembers]. split; [exact Hid|]. split; [|split; [|split]].
  - rewrite (owned_count_insert _ _ _ _ channelID Hnone Hmsgs).
    rewrite HasAncestor_message_key by assumption.
    now rewrite bool_decide_eq_true_2.
  - intros k Hk. rewrite Hchs, lookup_insert_ne by congruence.
    split; [reflexivity|]. intros ? ?.
    rewrite (owned_count_insert _ _ _ _ k Hnone Hmsgs).
    rewrite HasAncestor_message_key by assumption.
    now rewrite bool_decide_eq_false_2.
  - intros Hget. revert Htx.
    unfold datastore_RunInTransaction, createMessage_tx, datastore_Get_channel,
      datastore_Put_message, datastore_Put_channel, datastore_NewIncompleteKey.
    rewrite Hget. cbn [channels].
    destruct (put_fault F (mkKey messageKind "" 0 (Some channelID)));
      [discriminate|]. cbn [channels].
    destruct (put_fault F channelID); [discriminate|].
    destruct (commit_fault F); [discriminate|].
    intros [= <-]. cbn [channels]. rewrite lookup_insert_eq.
    eexists. split; [reflexivity|].
    destruct (channels st !! channelID) as [c|] eqn:Hc; cbn.
    + split; [|split; reflexivity].
      apply wrap_int_small. destruct Hroom as [_ Hroom].
      specialize (Hroom _ _ Hc). lia.
    + split; [reflexivity | split; reflexivity].
  - split.
    + intros k c. rewrite Hchs, lookup_insert. case_decide as Hk.
      * subst k. intros _. now split.
      * apply Hkeys.
    + intros k m. rewrite Hmsgs, Hchs, Hnext, lookup_insert. case_decide as Hk.
      * subst k. intros _. exists (nextID st), channelID.
        split; [reflexivity|]. split; [lia|]. rewrite lookup_insert_eq. eauto.
      * intros Hm. apply Hmkeys in Hm as (n & q & -> & Hlt & Hq).
        exists n, q. split; [reflexivity|]. split; [lia|].
        rewrite lookup_insert. case_decide; eauto.
Qed.

(** A call that does not answer with content leaves the store alone. *)
Lemma createMessage_store_unchanged F st r :
  (forall message, (createMessage F st r).2 <> Content message) ->
  (createMessage F st r).1 = st.
Proof.
  unfold createMessage.
  destruct (req_user r) as [user|]; [|reflexivity].
  destruct (DecodeKey _) as [gameID|]; [|reflexivity].
  destruct (MemberID _ _) as [memberID|]; [|reflexivity].
  destruct (datastore_GetMulti _ _ _ _) as [[[e|] game] member]; [reflexivity|].
  destruct (req_post r) as [[posted body]|]; [|reflexivity].
  cbv zeta. destruct (negb (Includes _ _)); [reflexivity|].
  destruct (negb (forallb _ _)); [reflexivity|].
  destruct (ChannelID _ _) as [channelID|]; [|reflexivity].
  destruct (datastore_RunInTransaction _ _) as [[st2 message2]|]; [|reflexivity].
  intros H. now contradiction (H message2).
Qed.

(** No message lies under the key of a channel that has no record. *)
Lemma owned_count_absent st k :
  store_ok st -> Key_kind k = channelKind -> Parent k = None ->
  channels st !! k = None -> owned_count st k = 0%nat.
Proof.
  intros [Hkeys Hmkeys] Hkind Hparent Hnone. unfold owned_count, query_messages.
  rewrite length_fmap.
  assert (forall km, km ∈ map_to_list (messages st) -> selected k None km = false)
    as Hall.
  { intros [key m] Hin%elem_of_map_to_list.
    destruct (Hmkeys _ _ Hin) as (n & p & -> & _ & [c Hc]).
    destruct (Hkeys _ _ Hc) as [? ?].
    unfold selected. simpl fst. rewrite HasAncestor_message_key by assumption.
    rewrite bool_decide_eq_false_2; [reflexivity | congruence]. }
  induction (map_to_list (messages st)) as [|km l IH]; [reflexivity|].
  simpl. rewrite (Hall km) by left. apply IH. intros km' Hin. apply Hall. now right.
Qed.

(** So, as long as [datastore.Get] does not fail, a call keeps every
    counter equal to the number of messages under its key. *)
Lemma createMessage_preserves_counters F st r :
  (forall k, get_fault F k = None) ->
  store_ok st -> headroom 1 st -> counters_match st ->
  store_ok (createMessage F st r).1 /\ counters_match (createMessage F st r).1.
Proof.
  intros Hget Hok Hroom Hmatch.
  destruct (createMessage F st r) as [st' resp] eqn:Hcall.
  destruct resp as [message|msg code|e].
  - destruct (createMessage_counts _ _ _ _ _ Hok Hroom Hcall)
      as (channelID & Hid & Hcount & Hother & Hthis & Hok').
    split; [exact Hok'|]. simpl.
    intros k c' Hc'. destruct (decide (k = channelID)) as [->|Hne].
    + destruct (Hthis (Hget channelID)) as (c2 & Hc2 & Hcase).
      rewrite Hc' in Hc2. injection Hc2 as <-. rewrite Hcount.
      destruct (channels st !! channelID) as [c|] eqn:Hc.
      * destruct Hcase as (-> & _). rewrite (Hmatch _ _ Hc). lia.
      * destruct Hcase as (-> & _).
        destruct (ChannelID_Ok_shape _ _ _ Hid) as [? ?].
        rewrite (owned_count_absent st channelID) by assumption. reflexivity.
    + destruct (Hother k Hne) as [Hsame Hcnt]. rewrite Hsame in Hc'.
      destruct (channel_keys _ Hok _ _ Hc') as [? ?].
      rewrite Hcnt by assumption. now apply Hmatch.
  - pose proof (createMessage_store_unchanged F st r) as H.
    rewrite Hcall in H. simpl in *. rewrite H by discriminate. now split.
  - pose proof (createMessage_store_unchanged F st r) as H.
    rewrite Hcall in H. simpl in *. rewrite H by discriminate. now split.
Qed.

Lemma headroom_S n st : headroom (S n) st -> headroom 1 st.
Proof.
  intros [Hn H]. split; [lia|]. intros k c Hc. specialize (H k c Hc). lia.
Qed.

(** A call uses up at most one increment of each counter. *)
Lemma createMessage_headroom F st r n :
  (forall k, get_fault F k = None) ->
  store_ok st -> headroom (S n) st -> headroom n (createMessage F st r).1.
Proof.
  intros Hget Hok Hroom.
  destruct (createMessage F st r) as [st' resp] eqn:Hcall.
  destruct resp as [message|msg code|e].
  - destruct (createMessage_counts _ _ _ _ _ Hok (headroom_S _ _ Hroom) Hcall)
      as (channelID & _ & _ & Hother & Hthis & _).
    destruct Hroom as [Hn Hroom]. split; [lia|]. simpl.
    intros k c' Hc'. destruct (decide (k = channelID)) as [->|Hne].
    + destruct (Hthis (Hget channelID)) as (c2 & Hc2 & Hcase).
      rewrite Hc' in Hc2. injection Hc2 as <-.
      destruct (channels st !! channelID) as [c|] eqn:Hc.
      * destruct Hcase as (-> & _). specialize (Hroom _ _ Hc). lia.
      * destruct Hcase as (-> & _). lia.
    + destruct (Hother k Hne) as [Hsame _]. rewrite Hsame in Hc'.
      specialize (Hroom _ _ Hc'). lia.
  - pose proof (createMessage_store_unchanged F st r) as H.
    rewrite Hcall in H. simpl in *. rewrite H by discriminate.
    destruct Hroom as [Hn Hroom]. split; [lia|].
    intros k c Hc. specialize (Hroom k c Hc). lia.
  - pose proof (createMessage_store_unchanged F st r) as H.
    rewrite Hcall in H. simpl in *. rewrite H by discriminate.
    destruct Hroom as [Hn Hroom]. split; [lia|].
    intros k c Hc. specialize (Hroom k c Hc). lia.
Qed.

(** A call adds one message under [k] when it delivers to [k], and none
    otherwise; a channel record, once there, stays. *)
Lemma createMessage_owned_count F st r k :
  store_ok st -> headroom 1 st ->
  Key_kind k = channelKind -> Parent k = None ->
  owned_count (createMessage F st r).1 k
  = (owned_count st k
     + if delivered_to k (createMessage F st r).2 then 1 else 0)%nat
  /\ (is_Some (channels st !! k) \/ delivered_to k (createMessage F st r).2 = true
      -> get_fault F k = None
      -> is_Some (channels (createMessage F st r).1 !! k)).
Proof.
  intros Hok Hroom Hkind Hparent.
  destruct (createMessage F st r) as [st' resp] eqn:Hcall.
  destruct resp as [message|msg code|e].
  - destruct (createMessage_counts _ _ _ _ _ Hok Hroom Hcall)
      as (channelID & Hid & Hcount & Hother & Hthis & _).
    simpl. rewrite Hid. destruct (decide (channelID = k)) as [->|Hne].
    + rewrite bool_decide_eq_true_2 by reflexivity. split; [lia|].
      intros _ Hget. destruct (Hthis Hget) as (c' & -> & _). eauto.
    + rewrite bool_decide_eq_false_2 by assumption.
      destruct (Hother k (not_eq_sym Hne)) as [Hsame Hcnt].
      split; [rewrite Hcnt by assumption; lia|].
      rewrite Hsame. intros [?|?]; [auto | discriminate].
  - pose proof (createMessage_store_unchanged F st r) as H.
    rewrite Hcall in H. simpl in *. rewrite H by discriminate.
    split; [lia|]. intros [?|?]; [auto | discriminate].
  - pose proof (createMessage_store_unchanged F st r) as H.
    rewrite Hcall in H. simpl in *. rewrite H by discriminate.
    split; [lia|]. intros [?|?]; [auto | discriminate].
Qed.

(** Any number of calls, in whatever order their transactions take effect:
    as long as [datastore.Get] does not fail, the counters keep matching,
    and the channel with key [k] gains one message per call that delivers
    to it. *)
Lemma createMessages_counters F rs : forall st k,
  (forall k, get_fault F k = None) ->
  store_ok st -> headroom (length rs) st -> counters_match st ->
  Key_kind k = channelKind -> Parent k = None ->
  store_ok (createMessages F st rs)
  /\ counters_match (createMessages F st rs)
  /\ owned_count (createMessages F st rs) k
     = (owned_count st k + deliveries F st rs k)%nat
  /\ (is_Some (channels st !! k) \/ (0 < deliveries F st rs k)%nat ->
      is_Some (channels (createMessages F st rs) !! k)).
Proof.
  induction rs as [|r rs IH]; intros st k Hget Hok Hroom Hmatch Hkind Hparent.
  - simpl. split; [assumption|]. split; [assumption|]. split; [lia|].
    intros [?|?]; [assumption | lia].
  - simpl length in Hroom.
    pose proof (createMessage_preserves_counters F st r Hget Hok
                  (headroom_S _ _ Hroom) Hmatch) as [Hok1 Hmatch1].
    pose proof (createMessage_headroom F st r _ Hget Hok Hroom) as Hroom1.
    pose proof (createMessage_owned_count F st r k Hok (headroom_S _ _ Hroom)
                  Hkind Hparent) as [Hcnt1 Hsome1].
    destruct (IH (createMessage F st r).1 k Hget Hok1 Hroom1 Hmatch1 Hkind Hparent)
      as (Hok2 & Hmatch2 & Hcnt2 & Hsome2).
    unfold createMessages in *. simpl foldl. simpl deliveries.
    destruct (createMessage F st r) as [st1 resp]. simpl in *.
    split; [assumption|]. split; [assumption|]. split; [lia|].
    intros Hcase. apply Hsome2.
    destruct (delivered_to k resp) eqn:Hd.
    + left. apply Hsome1; auto.
    + destruct Hcase as [?|?]; [left; apply Hsome1; auto | right; lia].
Qed.

(** X11.  In particular, for a channel that was not there: after the calls, its
    counter and the number of its messages both are the number of calls
    that delivered to it. *)
Lemma createMessages_counter_exact F rs st k :
  (forall k, get_fault F k = None) ->
  store_ok st -> headroom (length rs) st -> counters_match st ->
  Key_kind k = channelKind -> Parent k = None ->
  channels st !! k = None ->
  (0 < deliveries F st rs k)%nat ->
  owned_count (createMessages F st rs) k = deliveries F st rs k
  /\ exists c, channels (createMessages F st rs) !! k = Some c
              /\ NMessages c = Z.of_nat (deliveries F st rs k).
Proof.
  intros Hget Hok Hroom Hmatch Hkind Hparent Hnone Hpos.
  destruct (createMessages_counters F rs st k Hget Hok Hroom Hmatch Hkind Hparent)
    as (_ & Hmatch' & Hcnt & Hsome).
  rewrite (owned_count_absent st k Hok Hkind Hparent Hnone) in Hcnt.
  simpl in Hcnt. split; [exact Hcnt|].
  destruct Hsome as [c Hc]; [now right|].
  exists c. split; [exact Hc|]. rewrite (Hmatch' _ _ Hc). now rewrite Hcnt.
Qed.

(** ** Keys tell channels apart *)

Lemma pretty_N_go_no_colon x s :
  contains_byte ":" s = false -> contains_byte ":" (pretty_N_go x s) = false.
Proof.
  revert s. induction (N.lt_wf_0 x) as [x _ IH]; intros s Hs.
  assert (x = 0 \/ 0 < x)%N as [->|Hpos] by lia.
  - now rewrite pretty_N_go_0.
  - rewrite pretty_N_go_step by assumption. apply IH.
    + now apply N.div_lt.
    + simpl. rewrite Hs, orb_false_r. unfold pretty_N_char.
      repeat case_match; reflexivity.
Qed.

Lemma pretty_Z_no_colon (z : Z) : contains_byte ":" (pretty z) = false.
Proof.
  assert (forall p : positive, contains_byte ":" (pretty p) = false) as Hpos.
  { intros p. unfold pretty, pretty_positive, pretty, pretty_N.
    case_decide; [reflexivity|]. now apply pretty_N_go_no_colon. }
  destruct z as [|p|p]; [reflexivity | apply Hpos |].
  unfold pretty, pretty_Z. change ("-" +:+ pretty p) with (String "-" (pretty p)).
  simpl. apply Hpos.
Qed.

Lemma colon_separates a b s t :
  contains_byte ":" a = false -> contains_byte ":" b = false ->
  a +:+ ":" +:+ s = b +:+ ":" +:+ t -> a = b /\ s = t.
Proof.
  revert b. induction a as [|x a IH]; intros [|y b] Ha Hb E;
    cbv [String.append] in E; fold String.append in E; simpl in Ha, Hb.
  - injection E as ->. now split.
  - injection E as <- _. apply orb_false_iff in Hb as [Hy _]. discriminate Hy.
  - injection E as -> _. apply orb_false_iff in Ha as [Hx _]. discriminate Hx.
  - injection E as -> E.
    apply orb_false_iff in Ha as [_ Ha]. apply orb_false_iff in Hb as [_ Hb].
    destruct (IH b Ha Hb E) as [-> ->]. now split.
Qed.

(** Two comma-free member lists with the same key are the same list, and
    their games have the same integer id. *)
Lemma ChannelID_inj G1 G2 (M1 M2 : Nations) k :
  ChannelID G1 M1 = Ok k -> ChannelID G2 M2 = Ok k ->
  Forall (fun x => contains_byte comma x = false) M1 ->
  Forall (fun x => contains_byte comma x = false) M2 ->
  (IntID <$> G1) = (IntID <$> G2) /\ M1 = M2.
Proof.
  unfold ChannelID. destruct G1 as [g1|], G2 as [g2|]; try discriminate.
  destruct (Z.ltb_spec (Z.of_nat (length M1)) 2) as [|Hl1]; [discriminate|].
  destruct (Z.ltb_spec (Z.of_nat (length M2)) 2) as [|Hl2]; [discriminate|].
  destruct (IntID g1 =? 0); [discriminate|].
  destruct (IntID g2 =? 0); [discriminate|].
  intros [= <-] [= E] Hc1 Hc2. unfold Sprintf_d_s in E.
  apply colon_separates in E as [Eid Emem]; try apply pretty_Z_no_colon.
  apply (inj pretty) in Eid. split; [simpl; congruence|].
  pose proof (strings_Split_Join comma M1) as R1.
  pose proof (strings_Split_Join comma M2) as R2.
  unfold Nations_String in Emem. rewrite !map_id in Emem.
  rewrite <- R1, <- R2; try assumption.
  - unfold comma. now rewrite Emem.
  - intros ->. simpl in Hl2. lia.
  - intros ->. simpl in Hl1. lia.
Qed.

(** A call that answers with content went through every check and through
    the transaction. *)
Lemma createMessage_Content_inv F st r st' message :
  createMessage F st r = (st', Content message) ->
  exists gameID game member posted body channelID,
    reaches_checks F st r gameID game member posted body
    /\ Includes (sort_Sort posted) (Member_Nation member) = true
    /\ forallb (Includes (Variants (Variant game))) (sort_Sort posted) = true
    /\ ChannelID (Some gameID) (sort_Sort posted) = Ok channelID
    /\ datastore_RunInTransaction F
         (createMessage_tx F st channelID gameID
            (new_message r gameID member posted body))
       = Ok (st', message).
Proof.
  unfold createMessage, reaches_checks.
  destruct (req_user r) as [user|]; [|discriminate].
  destruct (DecodeKey _) as [gameID|] eqn:Hg; [|discriminate].
  destruct (MemberID _ _) as [memberID|] eqn:Hm; [|discriminate].
  destruct (datastore_GetMulti _ _ _ _) as [[[e|] game] member] eqn:Hl;
    [discriminate|].
  destruct (req_post r) as [[posted body]|]; [|discriminate].
  cbv zeta. cbn [ChannelMembers].
  destruct (Includes _ _) eqn:Hs; cbn [negb]; [|discriminate].
  destruct (forallb _ _) eqn:Hr; cbn [negb]; [|discriminate].
  destruct (ChannelID _ _) as [channelID|] eqn:Hid; [|discriminate].
  destruct (datastore_RunInTransaction _ _) as [[st2 message2]|] eqn:Htx;
    [|discriminate].
  intros [= <- <-].
  exists gameID, game, member, posted, body, channelID.
  split; [exists user, memberID; auto|]. auto.
Qed.

(** The channel record the transaction writes, when its read did not fail:
    the record that was there, or a new one for the posted members. *)
Lemma createMessage_tx_channel F st channelID gameID message st' message' :
  get_fault F channelID = None ->
  datastore_RunInTransaction F (createMessage_tx F st channelID gameID message)
    = Ok (st', message') ->
  exists c',
    channels st' = <[channelID := c']> (channels st)
    /\ match channels st !! channelID with
       | Some c => Channel_GameID c' = Channel_GameID c /\ Members c' = Members c
       | None => Channel_GameID c' = Some gameID
                 /\ Members c' = ChannelMembers message
       end.
Proof.
  intros Hget.
  unfold datastore_RunInTransaction, createMessage_tx, datastore_Get_channel,
    datastore_Put_message, datastore_Put_channel, datastore_NewIncompleteKey.
  rewrite Hget. cbn [channels].
  destruct (put_fault F (mkKey messageKind "" 0 (Some channelID)));
    [discriminate|]. cbn [channels].
  destruct (put_fault F channelID); [discriminate|].
  destruct (commit_fault F); [discriminate|].
  intros [= <- _]. cbn [channels]. eexists. split; [reflexivity|].
  destruct (channels st !! channelID); split; reflexivity.
Qed.

(** As long as [datastore.Get] does not fail and the rosters are free of
    commas, channel records stay at the keys of their own members. *)
Lemma createMessage_preserves_channels_keyed F st r :
  (forall k, get_fault F k = None) ->
  (forall variant,
      Forall (fun x => contains_byte comma x = false) (Variants variant)) ->
  channels_keyed st -> channels_keyed (createMessage F st r).1.
Proof.
  intros Hget Hroster Hkeyed.
  destruct (createMessage F st r) as [st' resp] eqn:Hcall.
  destruct resp as [message|msg code|e].
  - apply createMessage_Content_inv in Hcall
      as (gameID & game & member & posted & body & channelID
          & _ & _ & Hvalid & Hid & Htx).
    apply (createMessage_tx_channel _ _ _ _ _ _ _ (Hget channelID)) in Htx
      as (c' & Hchs & Hc'). simpl.
    intros k c. rewrite Hchs, lookup_insert. case_decide as Hk.
    + subst k. intros [= <-].
      destruct (channels st !! channelID) as [c0|] eqn:Hc0.
      * destruct Hc' as [-> ->]. now apply Hkeyed.
      * destruct Hc' as [-> ->]. simpl. split; [exact Hid|].
        apply Forall_forall. intros x Hx.
        pose proof (Hroster (Variant game)) as Hfree.
        rewrite Forall_forall in Hfree. apply Hfree.
        now apply (proj1 (forallb_Includes_true _ _) Hvalid).
    + apply Hkeyed.
  - pose proof (createMessage_store_unchanged F st r) as H.
    rewrite Hcall in H. simpl in *. now rewrite H by discriminate.
  - pose proof (createMessage_store_unchanged F st r) as H.
    rewrite Hcall in H. simpl in *. now rewrite H by discriminate.
Qed.

(** ** Channel listing *)

(** What [listChannels] does once the requester is known. *)
Lemma listChannels_reached F arrival st r gameID since nation game :
  reaches_listing F st r gameID since nation game ->
  listChannels F arrival st r =
    try channels_ <- visible_channels F st gameID nation game;
    match since with
    | Some since =>
        let outcomes := count_all F st since channels_ in
        let merr := received_errors outcomes arrival in
        if (0 <? length merr)%nat then Failed (MultiError (map Some merr))
        else Content (map snd outcomes)
    | None =>
        Content
          (map (fun c =>
                  {| Channel_GameID := Channel_GameID c; Members := Members c;
                     NMessages := NMessages c;
                     Channel_NMessagesSince :=
                       {| Since := Since (Channel_NMessagesSince c);
                          Since_NMessages := NMessages c |} |})
             channels_)
    end.
Proof.
  intros (user & memberID & Hu & Hg & Hs & Hm & Hl).
  unfold listChannels. now rewrite Hu, Hg, Hm, Hs, Hl.
Qed.

(** [CountSince] touches [NMessagesSince] only. *)
Lemma CountSince_persisted F st c since :
  stored_Channel (CountSince F st c since).2 = stored_Channel c.
Proof.
  unfold CountSince. destruct (ChannelID _ _); [|reflexivity].
  now destruct (datastore_Count _ _ _ _).
Qed.





(** ** The counting fan-out *)

Lemma omap_lookup_seq {A B} (f : A -> option B) (l : list A) :
  omap (fun i => l !! i ≫= f) (seq 0 (length l)) = omap f l.
Proof.
  induction l as [|x l IH]; [reflexivity|].
  assert (forall s : list nat,
             omap (fun i => (x :: l) !! i ≫= f) (S <$> s)
             = omap (fun i => l !! i ≫= f) s) as Hshift.
  { induction s as [|i s IHs]; [reflexivity|].
    rewrite fmap_cons. change (omap ?g (?a :: ?t))
      with (match g a with Some y => y :: omap g t | None => omap g t end).
    rewrite IHs. reflexivity. }
  cbn [length seq]. rewrite <- fmap_S_seq.
  change (omap ?g (?a :: ?t))
    with (match g a with Some y => y :: omap g t | None => omap g t end).
  rewrite Hshift, IH. reflexivity.
Qed.

(** The errors the handler collects are the errors of all the counting
    tasks, in the order the tasks happen to report. *)
Lemma received_errors_all F st since (channels_ : Channels) arrival :
  arrival ≡ₚ seq 0 (length channels_) ->
  received_errors (count_all F st since channels_) arrival
  ≡ₚ omap (fun c => (CountSince F st c since).1) channels_.
Proof.
  intros Harr. unfold received_errors, count_all. rewrite Harr.
  replace (length channels_)
    with (length (map (fun c => CountSince F st c since) channels_))
    by apply length_map.
  rewrite omap_lookup_seq. clear Harr.
  induction channels_ as [|c l IH]; [reflexivity|].
  simpl. destruct (CountSince F st c since).1; [now apply Permutation_skip | exact IH].
Qed.

(** C3.  With a cut-off, when the counting of one channel or more fails,
    [listChannels] returns an [appengine.MultiError] holding the errors of
    all the counts that failed, each once, and no content; the errors come
    in the order the tasks report, which the scheduler decides.  When no
    count fails it returns all the channels. *)
Theorem listChannels_count_failures_aggregated :
  forall F arrival st r gameID since nation game channels_,
    reaches_listing F st r gameID (Some since) nation game ->
    visible_channels F st gameID nation game = Ok channels_ ->
    arrival ≡ₚ seq 0 (length channels_) ->
    let failures := omap (fun c => (CountSince F st c since).1) channels_ in
    (failures <> [] ->
       exists merr,
         listChannels F arrival st r = Failed (MultiError (map Some merr))
         /\ merr ≡ₚ failures)
    /\ (failures = [] ->
         listChannels F arrival st r
         = Content (map (fun c => (CountSince F st c since).2) channels_)).
Proof.
  intros F arrival st r gameID since nation game channels_ Hreach Hvis Harr
    failures.
  rewrite (listChannels_reached _ _ _ _ _ _ _ _ Hreach), Hvis. cbv zeta.
  pose proof (received_errors_all F st since channels_ arrival Harr) as Hall.
  fold failures in Hall.
  destruct (received_errors _ arrival) as [|e merr] eqn:Hrecv.
  - apply Permutation_nil_l in Hall. split; [congruence|].
    intros _. simpl. unfold count_all. now rewrite map_map.
  - split.
    + intros _. exists (e :: merr). split; [reflexivity | exact Hall].
    + intros Hnil. rewrite Hnil in Hall. now apply Permutation_nil_r in Hall.
Qed.

(** ** Further properties: the public channel *)

(** X6.  [isPublic] answers true exactly for the member lists that are a
    rearrangement of the roster of the variant, and in every case leaves
    the caller's slice sorted: the same elements in ascending order. *)
Theorem isPublic_iff_roster_rearranged :
  forall (variant : string) (members_ : Nations),
    ((isPublic variant members_).1 = true <-> members_ ≡ₚ Variants variant)
    /\ (isPublic variant members_).2 ≡ₚ members_
    /\ Sorted String.le (isPublic variant members_).2.
Proof.
  intros variant members_. rewrite isPublic_members. split; [|split].
  - apply isPublic_Permutation.
  - apply sort_Sort_Permutation.
  - apply sort_Sort_Sorted.
Qed.

(** X7.  [publicChannel] is the roster of the variant in ascending order:
    a sorted rearrangement of it, which [isPublic] accepts; for a variant
    the registry does not know it is empty, and no member list is public. *)
Theorem publicChannel_sorted_roster :
  forall variant : string,
    publicChannel variant ≡ₚ Variants variant
    /\ Sorted String.le (publicChannel variant)
    /\ (isPublic variant (publicChannel variant)).1 = true
    /\ (Variants variant = [] ->
        publicChannel variant = []
        /\ forall s, (isPublic variant (FromString s)).1 = false).
Proof.
  intros variant. unfold publicChannel. split; [|split; [|split]].
  - apply sort_Sort_Permutation.
  - apply sort_Sort_Sorted.
  - apply isPublic_Permutation, sort_Sort_Permutation.
  - intros Hnil. rewrite Hnil. split; [reflexivity|]. intros s.
    destruct (isPublic variant (FromString s)).1 eqn:E; [|reflexivity].
    apply isPublic_Permutation in E. rewrite Hnil in E.
    apply Permutation_nil_r in E. unfold FromString in E. rewrite map_id in E.
    now destruct (strings_Split_nonempty comma s).
Qed.

(** ** Further properties: the write path *)

(** X8.  A call either answers with a message, and then it has stored that
    one message under a fresh key below the channel's key, written the one
    channel record, and touched nothing else; or it answers otherwise, and
    then the store is as it was. *)
Theorem createMessage_all_or_nothing :
  forall F st r,
    match (createMessage F st r).2 with
    | Content message =>
        exists channelID channel,
          ChannelID (GameID message) (ChannelMembers message) = Ok channelID
          /\ ID message = Some (mkKey messageKind "" (nextID st) (Some channelID))
          /\ messages (createMessage F st r).1
             = <[mkKey messageKind "" (nextID st) (Some channelID)
                 := stored_Message message]> (messages st)
          /\ channels (createMessage F st r).1
             = <[channelID := channel]> (channels st)
          /\ games (createMessage F st r).1 = games st
          /\ members (createMessage F st r).1 = members st
          /\ nextID (createMessage F st r).1 = nextID st + 1
    | _ => (createMessage F st r).1 = st
    end.
Proof.
  intros F st r.
  destruct (createMessage F st r) as [st' resp] eqn:Hcall.
  destruct resp as [message|msg code|e]; simpl.
  - apply createMessage_Content_inv in Hcall
      as (gameID & game & member & posted & body & channelID
          & _ & _ & _ & Hid & Htx).
    apply createMessage_tx_Ok in Htx
      as (channel & -> & Hgames & Hmembers & Hmsgs & Hchs & Hnext).
    exists channelID, channel. simpl. auto 10.
  - pose proof (createMessage_store_unchanged F st r) as H.
    rewrite Hcall in H. apply H. discriminate.
  - pose proof (createMessage_store_unchanged F st r) as H.
    rewrite Hcall in H. apply H. discriminate.
Qed.

(** X9.  A message is only ever created for a user who has a member record
    in an existing game, and to at least two members: the message carries
    that member's nation as sender, the instant of the call, the posted
    text, and the posted members in ascending order. *)
Theorem createMessage_message_fields :
  forall F st r st' message,
    createMessage F st r = (st', Content message) ->
    exists user gameID memberID game member posted body,
      req_user r = Some user
      /\ DecodeKey (req_game_id r) = Ok gameID
      /\ MemberID gameID (Id user) = Ok memberID
      /\ games st !! gameID = Some game
      /\ members st !! memberID = Some member
      /\ req_post r = Ok (posted, body)
      /\ GameID message = Some gameID
      /\ Sender message = Member_Nation member
      /\ Body message = body
      /\ CreatedAt message = req_now r
      /\ ChannelMembers message = sort_Sort posted
      /\ Sorted String.le (ChannelMembers message)
      /\ (2 <= length posted)%nat
      /\ IntID gameID <> 0.
Proof.
  intros F st r st' message Hcall.
  apply createMessage_Content_inv in Hcall
    as (gameID & game & member & posted & body & channelID
        & (user & memberID & Hu & Hg & Hm & Hl & Hp) & _ & _ & Hid & Htx).
  apply createMessage_tx_Ok in Htx as (channel & -> & _).
  exists user, gameID, memberID, game, member, posted, body. simpl.
  assert (games st !! gameID = Some game /\ members st !! memberID = Some member)
    as [Hgame Hmember].
  { unfold datastore_GetMulti in Hl. destruct (getmulti_fault F); [discriminate|].
    destruct (games st !! gameID), (members st !! memberID);
      try discriminate. injection Hl as <- <-. now split. }
  repeat (split; [assumption || reflexivity|]).
  split; [apply sort_Sort_Sorted|].
  revert Hid. unfold ChannelID. rewrite sort_Sort_length.
  destruct (Z.ltb_spec (Z.of_nat (length posted)) 2); [discriminate|].
  destruct (Z.eqb_spec (IntID gameID) 0); [discriminate|].
  intros _. split; [lia | assumption].
Qed.

(** X10.  The order in which the destination set is posted does not
    matter: two requests that differ only in that order have the same
    outcome, response and store. *)
Theorem createMessage_posted_order_irrelevant :
  forall F st r (posted1 posted2 : Nations) (body : string),
    posted1 ≡ₚ posted2 ->
    createMessage F st (with_post r (Ok (posted1, body)))
    = createMessage F st (with_post r (Ok (posted2, body))).
Proof.
  intros F st r posted1 posted2 body HP. unfold createMessage. simpl.
  now rewrite (sort_Sort_perm_eq posted1 posted2 HP).
Qed.

(** X12.  As long as [datastore.Get] does not fail and no roster holds a
    comma, a call keeps the store in order: ids stay fresh, message records
    stay under channel records, every counter stays equal to the number of
    messages under its key, every channel record stays at the key of its
    own members, and each counter has used up at most one increment. *)
Theorem createMessage_keeps_store_in_order :
  forall F st r (n : nat),
    (forall k, get_fault F k = None) ->
    (forall variant,
        Forall (fun x => contains_byte comma x = false) (Variants variant)) ->
    store_ok st -> counters_match st -> channels_keyed st ->
    headroom (S n) st ->
    store_ok (createMessage F st r).1
    /\ counters_match (createMessage F st r).1
    /\ channels_keyed (createMessage F st r).1
    /\ headroom n (createMessage F st r).1.
Proof.
  intros F st r n Hget Hroster Hok Hmatch Hkeyed Hroom.
  destruct (createMessage_preserves_counters F st r Hget Hok
              (headroom_S _ _ Hroom) Hmatch) as [Hok' Hmatch'].
  split; [exact Hok'|]. split; [exact Hmatch'|]. split.
  - now apply createMessage_preserves_channels_keyed.
  - now apply createMessage_headroom.
Qed.

(** ** Further properties: reading *)

Lemma HasAncestor_refl k : HasAncestor k k = true.
Proof.
  destruct k as [kd s_ i [p|]]; simpl;
    now rewrite bool_decide_eq_true_2 by reflexivity.
Qed.

(** A listing handler answers with content only after every step went
    through. *)
Lemma listMessages_Content_inv F st r messages_ members_ :
  listMessages F st r = Content (messages_, members_) ->
  exists gameID since nation game channelID,
    reaches_listing F st r gameID since nation game
    /\ members_ = (if Includes (FromString (req_channel_members r)) nation
                   then FromString (req_channel_members r)
                   else sort_Sort (FromString (req_channel_members r)))
    /\ ChannelID (Some gameID) members_ = Ok channelID
    /\ datastore_GetAll_messages F st channelID since = Ok messages_.
Proof.
  unfold listMessages, reaches_listing.
  destruct (req_user r) as [user|]; [|discriminate].
  destruct (DecodeKey _) as [gameID|] eqn:Hg; [|discriminate].
  destruct (parse_since _) as [since|] eqn:Hs; [|discriminate].
  destruct (MemberID _ _) as [memberID|] eqn:Hm; [|discriminate].
  destruct (load_requester _ _ _ _) as [[nation game]|] eqn:Hl; [|discriminate].
  pose proof (isPublic_members (Variant game)
                (FromString (req_channel_members r))) as Hsorted.
  destruct (Includes _ nation) eqn:Hinc; cbn [negb].
  - destruct (ChannelID _ _) as [channelID|] eqn:Hid; [|discriminate].
    destruct (datastore_GetAll_messages _ _ _ _) as [msgs|] eqn:Hq; [|discriminate].
    intros [= <- <-]. exists gameID, since, nation, game, channelID.
    split; [exists user, memberID; auto|]. rewrite Hinc. auto.
  - destruct (isPublic _ _) as [public sorted]. simpl in Hsorted. subst sorted.
    destruct public; cbn [negb]; [|discriminate].
    destruct (ChannelID _ _) as [channelID|] eqn:Hid; [|discriminate].
    destruct (datastore_GetAll_messages _ _ _ _) as [msgs|] eqn:Hq; [|discriminate].
    intros [= <- <-]. exists gameID, since, nation, game, channelID.
    split; [exists user, memberID; auto|]. rewrite Hinc. auto.
Qed.

(** X13.  [listMessages] never answers with content for a request without
    a user, for a game key without an integer id, or for fewer than two
    channel members (a [channel_members] parameter without a comma); what
    it answers with is newest first, and the members it reports are those
    of the request, in the order given or sorted. *)
Theorem listMessages_content_only_for_channels :
  forall F st r messages_ members_,
    listMessages F st r = Content (messages_, members_) ->
    is_Some (req_user r)
    /\ (exists gameID, DecodeKey (req_game_id r) = Ok gameID /\ IntID gameID <> 0)
    /\ (1 <= count_byte comma (req_channel_members r))%nat
    /\ (2 <= length members_)%nat
    /\ members_ ≡ₚ FromString (req_channel_members r)
    /\ StronglySorted newer_first messages_.
Proof.
  intros F st r messages_ members_ Hlist.
  apply listMessages_Content_inv in Hlist
    as (gameID & since & nation & game & channelID
        & (user & memberID & Hu & Hg & _) & Hmem & Hid & Hq).
  assert (members_ ≡ₚ FromString (req_channel_members r)) as Hperm.
  { rewrite Hmem. destruct (Includes _ _); [reflexivity|].
    apply sort_Sort_Permutation. }
  assert ((2 <= length members_)%nat /\ IntID gameID <> 0) as [Hlen Hint].
  { revert Hid. unfold ChannelID.
    destruct (Z.ltb_spec (Z.of_nat (length members_)) 2); [discriminate|].
    destruct (Z.eqb_spec (IntID gameID) 0); [discriminate|].
    intros _. split; [lia | assumption]. }
  split; [rewrite Hu; eauto|]. split; [eauto|]. split; [|split; [|split]];
    try assumption.
  - apply Permutation_length in Hperm.
    destruct (strings_Split_pieces comma (req_channel_members r)) as [_ Hcount].
    unfold FromString, Nations, Nation in *. rewrite map_id in Hperm. lia.
  - revert Hq. unfold datastore_GetAll_messages.
    destruct (getall_fault F); [discriminate|]. intros [= <-].
    apply StronglySorted_merge_sort; apply _.
Qed.

(** X14.  Somebody who is not a member of the public channel (an observer
    too) may name its members in any order: the answer is the one for the
    sorted roster. *)
Theorem listMessages_public_in_any_order :
  forall F st r gameID since nation game,
    reaches_listing F st r gameID since nation game ->
    Includes (FromString (req_channel_members r)) nation = false ->
    FromString (req_channel_members r) ≡ₚ Variants (Variant game) ->
    listMessages F st r
    = (try channelID <- ChannelID (Some gameID) (publicChannel (Variant game));
       try messages_ <- datastore_GetAll_messages F st channelID since;
       Content (messages_, publicChannel (Variant game))).
Proof.
  intros F st r gameID since nation game Hreach Hinc Hperm.
  rewrite (listMessages_reached _ _ _ _ _ _ _ Hreach). cbv zeta.
  rewrite Hinc. rewrite (proj2 (isPublic_Permutation _ _) Hperm).
  unfold publicChannel. now rewrite (sort_Sort_perm_eq _ _ Hperm).
Qed.

(** X15.  What is written can be read: after a call that answered with a
    message, a listing of the message's channel by one of its members, with
    no cut-off or one before the message, holds the stored message. *)
Theorem createMessage_then_listMessages :
  forall F st r st' message r' gameID since nation game,
    createMessage F st r = (st', Content message) ->
    reaches_listing F st' r' gameID since nation game ->
    GameID message = Some gameID ->
    FromString (req_channel_members r') = ChannelMembers message ->
    Includes (ChannelMembers message) nation = true ->
    after_cutoff since message ->
    getall_fault F = None ->
    exists messages_,
      listMessages F st' r' = Content (messages_, ChannelMembers message)
      /\ stored_Message message ∈ messages_.
Proof.
  intros F st r st' message r' gameID since nation game
    Hcall Hreach Hgame Hmembers Hinc Hafter Hfault.
  rewrite (listMessages_reached _ _ _ _ _ _ _ Hreach). cbv zeta.
  rewrite Hmembers, Hinc.
  apply createMessage_Content_inv in Hcall
    as (gameID0 & game0 & member & posted & body & channelID
        & _ & _ & _ & Hid & Htx).
  apply createMessage_tx_Ok in Htx as (channel & -> & _ & _ & Hmsgs & _).
  unfold new_message in *. cbn [GameID ChannelMembers] in *.
  injection Hgame as ->. rewrite Hid.
  unfold datastore_GetAll_messages. rewrite Hfault.
  eexists. split; [reflexivity|].
  rewrite merge_sort_Permutation.
  destruct (query_messages_spec st' channelID since) as (kms & -> & _ & Hin).
  eapply (list_elem_of_fmap_2' snd _
            (mkKey messageKind "" (nextID st) (Some channelID), _));
    [|reflexivity].
  apply Hin. rewrite Hmsgs, lookup_insert_eq. split; [reflexivity|]. split.
  - change (HasAncestor channelID (mkKey messageKind "" (nextID st) (Some channelID)))
      with (bool_decide (mkKey messageKind "" (nextID st) (Some channelID) = channelID)
            || HasAncestor channelID channelID).
    rewrite HasAncestor_refl. apply orb_true_r.
  - destruct since; [exact Hafter | exact I].
Qed.

(** ** Further properties: counting and listing channels *)

Lemma filter_length_le {A} (f g : A -> bool) (l : list A) :
  (forall x, f x = true -> g x = true) ->
  (length (List.filter f l) <= length (List.filter g l))%nat.
Proof.
  intros Hfg. induction l as [|x l IH]; simpl; [lia|].
  destruct (f x) eqn:Hf.
  - rewrite (Hfg x Hf). simpl. lia.
  - destruct (g x); simpl; lia.
Qed.

Lemma query_messages_since_le st a t :
  (length (query_messages st a (Some t)) <= owned_count st a)%nat.
Proof.
  unfold owned_count, query_messages. rewrite !length_fmap.
  apply filter_length_le. intros [k m]. unfold selected. simpl.
  intros [-> _]%andb_true_iff. reflexivity.
Qed.

(** X16.  [CountSince] either fails and leaves the channel as it was, or
    records the cut-off together with the number of messages under the
    channel's key that were created after it: the number of messages a
    listing with that cut-off returns, and at most the number of all the
    messages of the channel.  It never touches the persisted fields. *)
Theorem CountSince_counts_newer :
  forall F st c since,
    stored_Channel (CountSince F st c since).2 = stored_Channel c
    /\ match (CountSince F st c since).1 with
       | Some e => (CountSince F st c since).2 = c
       | None =>
           exists channelID,
             Channel_ID c = Ok channelID
             /\ Since (Channel_NMessagesSince (CountSince F st c since).2) = since
             /\ Since_NMessages (Channel_NMessagesSince (CountSince F st c since).2)
                = Z.of_nat (length (query_messages st channelID (Some since)))
             /\ (length (query_messages st channelID (Some since))
                 <= owned_count st channelID)%nat
             /\ forall F' messages_,
                  datastore_GetAll_messages F' st channelID (Some since)
                  = Ok messages_ ->
                  Z.of_nat (length messages_)
                  = Since_NMessages
                      (Channel_NMessagesSince (CountSince F st c since).2)
       end.
Proof.
  intros F st c since. split; [apply CountSince_persisted|].
  unfold CountSince, Channel_ID, datastore_Count.
  destruct (ChannelID _ _) as [channelID|]; [|reflexivity].
  destruct (count_fault F channelID); [reflexivity|]. simpl.
  exists channelID. split; [reflexivity|]. split; [reflexivity|].
  split; [reflexivity|]. split; [apply query_messages_since_le|].
  intros F' messages_. unfold datastore_GetAll_messages.
  destruct (getall_fault F'); [discriminate|]. intros [= <-].
  now rewrite merge_sort_Permutation.
Qed.

(** The channels a listing starts from are records of the store. *)
Lemma visible_channels_stored F st gameID nation game channels_ :
  visible_channels F st gameID nation game = Ok channels_ ->
  forall c, c ∈ channels_ -> exists k, channels st !! k = Some c.
Proof.
  unfold visible_channels. destruct (String.eqb nation "").
  - destruct (ChannelID _ _) as [k|]; [|discriminate].
    unfold datastore_Get_channel. destruct (get_fault F k); [discriminate|].
    destruct (channels st !! k) as [c0|] eqn:Hc0; intros [= <-] c Hc.
    + apply list_elem_of_singleton in Hc. subst. eauto.
    + inversion Hc.
  - unfold datastore_GetAll_channels. destruct (getall_fault F); [discriminate|].
    intros [= <-] c Hc%list_elem_of_In%filter_In.
    destruct Hc as [Hc%list_elem_of_In _].
    apply list_elem_of_fmap in Hc as ([k c0] & -> & Hin).
    exists k. now apply elem_of_map_to_list.
Qed.

Lemma omap_nil_inv {A B} (f : A -> option B) (l : list A) :
  omap f l = [] -> forall x, x ∈ l -> f x = None.
Proof.
  induction l as [|y l IH]; intros Hnil x Hx; [inversion Hx|].
  change (omap f (y :: l))
    with (match f y with Some z => z :: omap f l | None => omap f l end) in Hnil.
  destruct (f y) eqn:Hy; [discriminate|].
  apply elem_of_cons in Hx as [->|Hx]; [assumption | now apply IH].
Qed.

(** X17.  In a store that is in order, a listing with a cut-off that
    answers with content shows, for every channel, the cut-off and a count
    of newer messages that lies between zero and the channel's counter. *)
Theorem listChannels_delta_within_total :
  forall F arrival st r gameID since nation game channels_ shown,
    reaches_listing F st r gameID (Some since) nation game ->
    visible_channels F st gameID nation game = Ok channels_ ->
    arrival ≡ₚ seq 0 (length channels_) ->
    counters_match st -> channels_keyed st ->
    listChannels F arrival st r = Content shown ->
    length shown = length channels_
    /\ forall c, c ∈ shown ->
         Since (Channel_NMessagesSince c) = since
         /\ 0 <= Since_NMessages (Channel_NMessagesSince c) <= NMessages c.
Proof.
  intros F arrival st r gameID since nation game channels_ shown
    Hreach Hvis Harr Hmatch Hkeyed.
  rewrite (listChannels_reached _ _ _ _ _ _ _ _ Hreach), Hvis. cbv zeta.
  pose proof (received_errors_all F st since channels_ arrival Harr) as Hall.
  destruct (received_errors _ arrival) as [|e merr]; [|discriminate].
  apply Permutation_nil_l in Hall. simpl. intros [= <-].
  unfold count_all. rewrite map_map, length_map. split; [reflexivity|].
  intros c Hc%list_elem_of_fmap. destruct Hc as (c0 & -> & Hc0).
  pose proof (omap_nil_inv _ _ (eq_sym Hall) c0 Hc0) as Hok. simpl in Hok.
  destruct (visible_channels_stored _ _ _ _ _ _ Hvis c0 Hc0) as [k Hk].
  destruct (Hkeyed k c0 Hk) as [Hid _]. specialize (Hmatch k c0 Hk).
  revert Hok. unfold CountSince, datastore_Count. rewrite Hid.
  destruct (count_fault F k); [discriminate|]. simpl. intros _.
  split; [reflexivity|]. rewrite Hmatch.
  pose proof (query_messages_since_le st k since). lia.
Qed.

(** X18.  Without a cut-off, a player's listing holds exactly the channel
    records of the game that have the player's nation among their members,
    each with [NMessagesSince.NMessages] set to its counter. *)
Theorem listChannels_player_sees_own_channels :
  forall F arrival st r gameID nation game,
    reaches_listing F st r gameID None nation game ->
    nation <> ""%string ->
    getall_fault F = None ->
    exists shown,
      listChannels F arrival st r = Content shown
      /\ forall c, c ∈ shown <->
           exists k c0,
             channels st !! k = Some c0
             /\ Channel_GameID c0 = Some gameID
             /\ nation ∈ Members c0
             /\ c = {| Channel_GameID := Channel_GameID c0; Members := Members c0;
                       NMessages := NMessages c0;
                       Channel_NMessagesSince :=
                         {| Since := Since (Channel_NMessagesSince c0);
                            Since_NMessages := NMessages c0 |} |}.
Proof.
  intros F arrival st r gameID nation game Hreach Hnation Hfault.
  rewrite (listChannels_reached _ _ _ _ _ _ _ _ Hreach).
  unfold visible_channels, datastore_GetAll_channels.
  rewrite (proj2 (String.eqb_neq nation "") Hnation), Hfault.
  eexists. split; [reflexivity|]. intros c. rewrite list_elem_of_fmap. split.
  - intros (c0 & -> & Hc0%list_elem_of_In%filter_In).
    destruct Hc0 as [Hin%list_elem_of_In [Hg Hm]%andb_true_iff].
    apply list_elem_of_fmap in Hin as ([k c1] & -> & Hin).
    apply elem_of_map_to_list in Hin. exists k, c1. simpl in *.
    apply bool_decide_eq_true in Hg. apply Includes_elem_of in Hm. auto.
  - intros (k & c0 & Hk & Hg & Hm & ->). exists c0. split; [reflexivity|].
    apply list_elem_of_In, filter_In. split.
    + apply list_elem_of_In, list_elem_of_fmap. exists (k, c0).
      split; [reflexivity|]. now apply elem_of_map_to_list.
    + apply andb_true_iff. split; [now apply bool_decide_eq_true|].
      now apply Includes_elem_of.
Qed.

(** X19.  Every handler needs the game: when the store has no game record
    under the decoded key, both listings return [ErrNoSuchEntity], and
    [createMessage] returns the [MultiError] of [GetMulti] and leaves the
    store as it was.  (A missing member record alone makes the requester an
    observer for the listings.) *)
Theorem handlers_need_the_game :
  forall F arrival st r user gameID memberID since,
    req_user r = Some user ->
    DecodeKey (req_game_id r) = Ok gameID ->
    MemberID gameID (Id user) = Ok memberID ->
    parse_since (req_since r) = Ok since ->
    getmulti_fault F = None ->
    games st !! gameID = None ->
    listMessages F st r = Failed ErrNoSuchEntity
    /\ listChannels F arrival st r = Failed ErrNoSuchEntity
    /\ exists e1,
         createMessage F st r
         = (st, Failed (MultiError [Some ErrNoSuchEntity; e1])).
Proof.
  intros F arrival st r user gameID memberID since Hu Hg Hm Hs Hfault Hgame.
  assert (exists e1 game member,
             datastore_GetMulti F st gameID memberID
             = (Some (MultiError [Some ErrNoSuchEntity; e1]), game, member))
    as (e1 & game & member & Hload).
  { unfold datastore_GetMulti. rewrite Hfault, Hgame.
    destruct (members st !! memberID); eauto. }
  unfold listMessages, listChannels, createMessage, load_requester.
  rewrite Hu, Hg, Hm, Hs, Hload. eauto.
Qed.

(** X21.  A [since] parameter that is there and does not parse makes both
    listings return the error of [time.Parse], whatever the store holds and
    whichever calls of it would fail. *)
Theorem listings_reject_malformed_since :
  forall r user gameID memberID e,
    req_user r = Some user ->
    DecodeKey (req_game_id r) = Ok gameID ->
    MemberID gameID (Id user) = Ok memberID ->
    req_since r <> ""%string ->
    time_Parse (req_since r) = Err e ->
    forall F arrival st,
      listMessages F st r = Failed e
      /\ listChannels F arrival st r = Failed e.
Proof.
  intros r user gameID memberID e Hu Hg Hm Hne Hparse F arrival st.
  unfold listMessages, listChannels, parse_since.
  rewrite Hu, Hg, Hm, (proj2 (String.eqb_neq _ _) Hne), Hparse. now split.
Qed.

End Handlers.

(** ** The properties at work on the example game *)

(** Bob (Germany) asks for the messages between England and France. *)
Lemma listMessages_forbidden_iff_witness :
  exists msg,
    listMessages ex_Variants ex_DecodeKey ex_MemberID ex_time_Parse no_faults
      ex_store (ex_request "bob" "England,France" "" (Err ErrNoSuchEntity))
    = HttpError msg 403.
Proof.
  refine (proj2 (proj1 (listMessages_forbidden_iff
                          ex_Variants ex_DecodeKey ex_MemberID ex_time_Parse
                          no_faults ex_store _ ex_gameID None "Germany"%string
                          {| Variant := "Classical" |} _)) _).
  - exists {| Id := "bob" |}, (mkKey "Member" "bob" 0 (Some ex_gameID)).
    repeat split; vm_compute; reflexivity.
  - split; [vm_compute; reflexivity | vm_compute; discriminate].
Defined.

(** Alice (England) asks for the messages between England and France that
    are newer than instant 15. *)
Lemma listMessages_since_newest_first_witness :
  exists (messages_ : Messages) (kms : list (Key * Message)),
    listMessages ex_Variants ex_DecodeKey ex_MemberID ex_time_Parse no_faults
      ex_store
      (ex_request "alice" "England,France" "1970-01-01T00:00:15Z"
         (Err ErrNoSuchEntity))
    = Content (messages_, ["England"; "France"]%string)
    /\ StronglySorted newer_first messages_
    /\ messages_ ≡ₚ kms.*2
    /\ NoDup kms.*1
    /\ forall k m, (k, m) ∈ kms <->
          messages ex_store !! k = Some m
          /\ HasAncestor ex_EF k = true
          /\ after_cutoff (Some 15) m.
Proof.
  refine (listMessages_since_newest_first
            ex_Variants ex_DecodeKey ex_MemberID ex_time_Parse
            no_faults ex_store _ ex_gameID (Some 15) "England"%string
            {| Variant := "Classical" |} ex_EF _ _ _ _).
  - exists {| Id := "alice" |}, (mkKey "Member" "alice" 0 (Some ex_gameID)).
    repeat split; vm_compute; reflexivity.
  - left. vm_compute. reflexivity.
  - vm_compute. reflexivity.
  - reflexivity.
Defined.

(** C4, where the code departs from it.  The channel of England and
    France holds two messages, stored under the key of the sorted pair, the
    key the write path derives for either order.  Alice (England), a member,
    asks for the messages of that channel.  Naming the members as
    [England,France] she is shown both, newest first; naming them as
    [France,England] she is shown none: for a member [listMessages] does
    not sort before it derives the key, and reads ["1:France,England"],
    under which the write path never stores.  With a cut-off of 15 the one
    newer message is missed the same way. *)
Theorem listMessages_member_order_misses_messages :
  ChannelID (Some ex_gameID) (sort_Sort ["France"; "England"]%string) = Ok ex_EF
  /\ ChannelID (Some ex_gameID) (sort_Sort ["England"; "France"]%string) = Ok ex_EF
  /\ owned_count ex_store ex_EF = 2%nat
  /\ listMessages ex_Variants ex_DecodeKey ex_MemberID ex_time_Parse no_faults
       ex_store (ex_request "alice" "England,France" "" (Err ErrNoSuchEntity))
     = Content ([ex_message ["England"; "France"]%string "France" "salut" 20;
                 ex_message ["England"; "France"]%string "England" "hello" 10],
                ["England"; "France"]%string)
  /\ listMessages ex_Variants ex_DecodeKey ex_MemberID ex_time_Parse no_faults
       ex_store (ex_request "alice" "France,England" "" (Err ErrNoSuchEntity))
     = Content ([], ["France"; "England"]%string)
  /\ listMessages ex_Variants ex_DecodeKey ex_MemberID ex_time_Parse no_faults
       ex_store
       (ex_request "alice" "England,France" "1970-01-01T00:00:15Z"
          (Err ErrNoSuchEntity))
     = Content ([ex_message ["England"; "France"]%string "France" "salut" 20],
                ["England"; "France"]%string)
  /\ listMessages ex_Variants ex_DecodeKey ex_MemberID ex_time_Parse no_faults
       ex_store
       (ex_request "alice" "France,England" "1970-01-01T00:00:15Z"
          (Err ErrNoSuchEntity))
     = Content ([], ["France"; "England"]%string).
Proof. repeat split; vm_compute; reflexivity. Qed.

(** C5, where the code departs from it.  Olga has no member record in the
    game: she is an observer, and her nation stays the empty string.  The
    members [England,France] are not the roster, and asking for them she is
    refused with 403.  Asking for [England,France,] she is not: [FromString]
    reads the trailing comma as a third, empty identifier, [Includes] finds
    the empty nation among the members, and the handler goes on to the
    query and answers with content. *)
Theorem listMessages_observer_admitted_by_empty_identifier :
  members ex_store !! mkKey "Member" "olga" 0 (Some ex_gameID) = None
  /\ load_requester no_faults ex_store ex_gameID
       (mkKey "Member" "olga" 0 (Some ex_gameID))
     = Ok (""%string, {| Variant := "Classical" |})
  /\ FromString "England,France," = ["England"; "France"; ""]%string
  /\ (isPublic ex_Variants "Classical" (FromString "England,France,")).1 = false
  /\ listMessages ex_Variants ex_DecodeKey ex_MemberID ex_time_Parse no_faults
       ex_store (ex_request "olga" "England,France" "" (Err ErrNoSuchEntity))
     = HttpError "can only list member channels" 403
  /\ listMessages ex_Variants ex_DecodeKey ex_MemberID ex_time_Parse no_faults
       ex_store (ex_request "olga" "England,France," "" (Err ErrNoSuchEntity))
     = Content ([], ["England"; "France"; ""]%string).
Proof. repeat split; vm_compute; reflexivity. Qed.

(** Alice (England) writes to France and to a nation the variant does not
    have: the sender check comes first, and the answer is 403, not 400. *)
Lemma createMessage_unregistered_not_always_400 :
  ~ (forall Variants DecodeKey MemberID F st r gameID game member posted body,
        reaches_checks DecodeKey MemberID F st r gameID game member posted body ->
        (exists x, x ∈ posted /\ x ∉ Variants (Variant game)) ->
        exists msg,
          (createMessage Variants DecodeKey MemberID F st r).2
          = HttpError msg 400).
Proof.
  intros H.
  destruct (H ex_Variants ex_DecodeKey ex_MemberID no_faults ex_store
              (ex_request "alice" "" "" (Ok (["France"; "Mars"]%string, "hi"%string)))
              ex_gameID {| Variant := "Classical" |}
              {| Member_Nation := "England" |}
              ["France"; "Mars"]%string "hi"%string) as [msg Hmsg].
  - exists {| Id := "alice" |}, (mkKey "Member" "alice" 0 (Some ex_gameID)).
    repeat split; vm_compute; reflexivity.
  - exists "Mars"%string. split; [right; left|].
    intros Hin%Includes_elem_of. vm_compute in Hin. discriminate Hin.
  - vm_compute in Hmsg. discriminate Hmsg.
Qed.

(** Bob (Germany) writes to England and France. *)
Lemma createMessage_validates_destination_witness :
  createMessage ex_Variants ex_DecodeKey ex_MemberID no_faults ex_store
    (ex_request "bob" "" "" (Ok (["England"; "France"]%string, "psst"%string)))
  = (ex_store, HttpError "can only send messages to member channels" 403).
Proof.
  refine (proj1 (createMessage_validates_destination
                   ex_Variants ex_DecodeKey ex_MemberID no_faults ex_store _
                   ex_gameID {| Variant := "Classical" |}
                   {| Member_Nation := "Germany" |}
                   ["England"; "France"]%string "psst"%string _) _).
  - exists {| Id := "bob" |}, (mkKey "Member" "bob" 0 (Some ex_gameID)).
    repeat split; vm_compute; reflexivity.
  - intros Hin%Includes_elem_of. vm_compute in Hin. discriminate Hin.
Defined.

(** Bob (Germany) writes to Austria and to a nation the variant does not
    have.  The call gets as far as the checks, the destination set holds an
    identifier that is not on the roster, nothing is stored, and the answer
    is 403, not 400. *)
Lemma createMessage_unregistered_nonmember_gets_403 :
  let r := ex_request "bob" "" ""
             (Ok (["Austria"; "Atlantis"]%string, "hi"%string)) in
  let call := createMessage ex_Variants ex_DecodeKey ex_MemberID no_faults
                ex_store r in
  reaches_checks ex_DecodeKey ex_MemberID no_faults ex_store r ex_gameID
    {| Variant := "Classical" |} {| Member_Nation := "Germany" |}
    ["Austria"; "Atlantis"]%string "hi"%string
  /\ ("Atlantis"%string ∈ ["Austria"; "Atlantis"]%string)
  /\ ("Atlantis"%string ∉ ex_Variants "Classical")
  /\ call = (ex_store, HttpError "can only send messages to member channels" 403)
  /\ forall msg, call.2 <> HttpError msg 400.
Proof.
  intros r call.
  assert (reaches_checks ex_DecodeKey ex_MemberID no_faults ex_store r ex_gameID
            {| Variant := "Classical" |} {| Member_Nation := "Germany" |}
            ["Austria"; "Atlantis"]%string "hi"%string) as Hreach.
  { exists {| Id := "bob" |}, (mkKey "Member" "bob" 0 (Some ex_gameID)).
    repeat split; vm_compute; reflexivity. }
  assert (call = (ex_store,
                  HttpError "can only send messages to member channels" 403))
    as Hcall.
  { apply (proj1 (createMessage_rejections ex_Variants ex_DecodeKey ex_MemberID
                    _ _ _ _ _ _ _ _ Hreach)).
    intros Hin%Includes_elem_of. vm_compute in Hin. discriminate Hin. }
  split; [exact Hreach|]. split; [right; left|].
  split; [|split; [exact Hcall|]].
  - intros Hin%Includes_elem_of. vm_compute in Hin. discriminate Hin.
  - intros msg H. rewrite Hcall in H. discriminate H.
Qed.

(** Alice (England) writes to England and to a nation the variant does not
    have. *)
Lemma createMessage_unregistered_member_no_mutation_witness :
  createMessage ex_Variants ex_DecodeKey ex_MemberID no_faults ex_store
    (ex_request "alice" "" "" (Ok (["Mars"; "England"]%string, "hi"%string)))
  = (ex_store, HttpError "unknown channel member" 400).
Proof.
  destruct (createMessage_unregistered_member_no_mutation
              ex_Variants ex_DecodeKey ex_MemberID no_faults ex_store
              (ex_request "alice" "" ""
                 (Ok (["Mars"; "England"]%string, "hi"%string)))
              ex_gameID {| Variant := "Classical" |}
              {| Member_Nation := "England" |}
              ["Mars"; "England"]%string "hi"%string) as [[_ H]|[Hnot _]].
  - exists {| Id := "alice" |}, (mkKey "Member" "alice" 0 (Some ex_gameID)).
    repeat split; vm_compute; reflexivity.
  - exists "Mars"%string. split; [left|].
    intros Hin%Includes_elem_of. vm_compute in Hin. discriminate Hin.
  - exact H.
  - exfalso. apply Hnot. right. left.
Defined.

(** The example store is in order: two messages under the channel of
    England and France, whose counter is 2; one under the public channel,
    whose counter is 1. *)
Lemma ex_store_counters_match : counters_match ex_store.
Proof.
  assert (map_Forall (fun k c => NMessages c = Z.of_nat (owned_count ex_store k))
            (channels ex_store)) as H
    by (apply (bool_decide_unpack _); vm_compute; exact I).
  exact H.
Qed.

(** C2, where the code departs from it.  Alice (England) writes to England
    and France while [datastore.Get] on the channel times out.  The call
    gets through and stores a third message under the channel's key; the
    channel record, whose counter was 2, is written back from the zero
    value: counter 1, no game, no members. *)
Theorem createMessage_Get_error_resets_channel :
  let call :=
    createMessage ex_Variants ex_DecodeKey ex_MemberID ex_Get_times_out ex_store
      (ex_request "alice" "" ""
         (Ok (["France"; "England"]%string, "again"%string))) in
  channels ex_store !! ex_EF
    = Some {| Channel_GameID := Some ex_gameID;
              Members := ["England"; "France"]%string; NMessages := 2;
              Channel_NMessagesSince := zero_NMessagesSince |}
  /\ owned_count ex_store ex_EF = 2%nat
  /\ call.2
     = Content {| ID := Some (mkKey messageKind "" 4 (Some ex_EF));
                  GameID := Some ex_gameID;
                  ChannelMembers := ["England"; "France"]%string;
                  Sender := "England"; Body := "again"; CreatedAt := 30 |}
  /\ channels call.1 !! ex_EF
     = Some {| Channel_GameID := None; Members := []; NMessages := 1;
               Channel_NMessagesSince := zero_NMessagesSince |}
  /\ owned_count call.1 ex_EF = 3%nat.
Proof. repeat split; vm_compute; reflexivity. Qed.

(** The same call when the read goes through: counter 3, three messages. *)
Example createMessage_counts_when_Get_succeeds :
  let call :=
    createMessage ex_Variants ex_DecodeKey ex_MemberID no_faults ex_store
      (ex_request "alice" "" ""
         (Ok (["France"; "England"]%string, "again"%string))) in
  channels call.1 !! ex_EF
    = Some {| Channel_GameID := Some ex_gameID;
              Members := ["England"; "France"]%string; NMessages := 3;
              Channel_NMessagesSince := zero_NMessagesSince |}
  /\ owned_count call.1 ex_EF = 3%nat.
Proof. repeat split; vm_compute; reflexivity. Qed.

(** The channel records of the example store sit at the keys of their
    members. *)
Lemma ex_store_channels_keyed : channels_keyed ex_store.
Proof.
  intros k c H%elem_of_map_to_list%list_elem_of_In.
  eassert (map_to_list (channels ex_store) = _) as E
    by (vm_compute; reflexivity).
  rewrite E in H. clear E.
  destruct H as [[= <- <-]|[[= <- <-]|[]]];
    (split; [vm_compute; reflexivity | repeat constructor]).
Qed.


Example listChannels_observer_sees_public :
  listChannels ex_Variants ex_DecodeKey ex_MemberID ex_time_Parse no_faults []
    ex_store (ex_request "olga" "" "" (Err ErrNoSuchEntity))
  = Content [{| Channel_GameID := Some ex_gameID;
                Members := sort_Sort classical; NMessages := 1;
                Channel_NMessagesSince :=
                  {| Since := 0; Since_NMessages := 1 |} |}].
Proof. vm_compute. reflexivity. Qed.

(** Alice asks for her channels and their counts since instant 15; the
    count for England and France fails, the one for the public channel
    does not, and the second task reports first. *)
Lemma listChannels_count_failures_aggregated_witness :
  exists merr,
    listChannels ex_Variants ex_DecodeKey ex_MemberID ex_time_Parse
      ex_Count_fails [1; 0]%nat ex_store
      (ex_request "alice" "" "1970-01-01T00:00:15Z" (Err ErrNoSuchEntity))
    = Failed (MultiError (map Some merr))
    /\ merr ≡ₚ [Errorf "API error 4 (datastore_v3: NEED_INDEX)"].
Proof.
  refine (proj1 (listChannels_count_failures_aggregated
                   ex_Variants ex_DecodeKey ex_MemberID ex_time_Parse
                   ex_Count_fails [1; 0]%nat ex_store _ ex_gameID 15
                   "England"%string {| Variant := "Classical" |}
                   [ {| Channel_GameID := Some ex_gameID;
                        Members := sort_Sort classical; NMessages := 1;
                        Channel_NMessagesSince := zero_NMessagesSince |};
                     {| Channel_GameID := Some ex_gameID;
                        Members := ["England"; "France"]%string; NMessages := 2;
                        Channel_NMessagesSince := zero_NMessagesSince |} ]
                   _ _ _) _).
  - exists {| Id := "alice" |}, (mkKey "Member" "alice" 0 (Some ex_gameID)).
    repeat split; vm_compute; reflexivity.
  - vm_compute. reflexivity.
  - apply Permutation_swap.
  - vm_compute. discriminate.
Defined.

(** Without a cut-off Alice is shown both messages, the newer one first. *)
Example listMessages_all_newest_first :
  listMessages ex_Variants ex_DecodeKey ex_MemberID ex_time_Parse no_faults
    ex_store (ex_request "alice" "England,France" "" (Err ErrNoSuchEntity))
  = Content ([ex_message ["England"; "France"]%string "France" "salut" 20;
              ex_message ["England"; "France"]%string "England" "hello" 10],
             ["England"; "France"]%string).
Proof. vm_compute. reflexivity. Qed.

(** A first message to Germany and England, from a store that has no such
    channel: the channel appears at the key of the sorted pair with counter
    1; Carol (France) is refused its messages, Bob (Germany) is shown the
    message, and Alice finds the channel in her listing. *)
Example first_message_opens_channel :
  let call :=
    createMessage ex_Variants ex_DecodeKey ex_MemberID no_faults ex_store
      (ex_request "alice" "" ""
         (Ok (["Germany"; "England"]%string, "hello"%string))) in
  let EG := mkKey channelKind "1:England,Germany" 0 None in
  channels ex_store !! EG = None
  /\ channels call.1 !! EG
     = Some {| Channel_GameID := Some ex_gameID;
               Members := ["England"; "Germany"]%string; NMessages := 1;
               Channel_NMessagesSince := zero_NMessagesSince |}
  /\ listMessages ex_Variants ex_DecodeKey ex_MemberID ex_time_Parse no_faults
       call.1 (ex_request "carol" "England,Germany" "" (Err ErrNoSuchEntity))
     = HttpError "can only list member channels" 403
  /\ listMessages ex_Variants ex_DecodeKey ex_MemberID ex_time_Parse no_faults
       call.1 (ex_request "bob" "England,Germany" "" (Err ErrNoSuchEntity))
     = Content ([ex_message ["England"; "Germany"]%string "England" "hello" 30],
                ["England"; "Germany"]%string)
  /\ exists others,
       listChannels ex_Variants ex_DecodeKey ex_MemberID ex_time_Parse
         no_faults [] call.1 (ex_request "bob" "" "" (Err ErrNoSuchEntity))
       = Content others
       /\ {| Channel_GameID := Some ex_gameID;
             Members := ["England"; "Germany"]%string; NMessages := 1;
             Channel_NMessagesSince :=
               {| Since := 0; Since_NMessages := 1 |} |} ∈ others.
Proof.
  repeat split; try (vm_compute; reflexivity).
  eexists. split; [vm_compute; reflexivity|].
  apply list_elem_of_In. vm_compute. auto.
Qed.

(* ================================================================== *)
(** * Further properties of the code *)

(** ** Participant sets as strings *)

(** X1.  Reading a string as a participant set and writing the set back
    gives the string again, whatever the string: [String] undoes
    [FromString]. *)
Theorem String_FromString_roundtrip :
  forall s : string, Nations_String (FromString s) = s.
Proof.
  intros s. unfold Nations_String, FromString. rewrite !map_id.
  apply strings_Join_Split.
Qed.

(** X2.  [FromString] cuts at every comma: it yields one identifier more
    than the string has commas, and no identifier holds a comma. *)
Theorem FromString_cuts_at_commas :
  forall s : string,
    length (FromString s) = S (count_byte comma s)
    /\ Forall (fun x => contains_byte comma x = false) (FromString s).
Proof.
  intros s. unfold FromString. rewrite map_id.
  destruct (strings_Split_pieces comma s) as [Hfree Hlen]. now split.
Qed.

(** ** The order [sort.Sort] is given *)

Lemma Less_iff a b : Less a b = true <-> String.le a b /\ a <> b.
Proof.
  unfold Less, String.ltb, String.le, String.leb.
  destruct (String.compare a b) eqn:E; simpl.
  - apply String.compare_eq_iff in E. subst. split; [discriminate|].
    intros [_ H]. now contradiction H.
  - split; [|reflexivity]. intros _. split; [exact I|].
    intros ->. assert (String.le b b) as H by reflexivity.
    unfold String.le, String.leb in H.
    pose proof (String.compare_antisym b b) as Ha. rewrite E in Ha. discriminate Ha.
  - split; [discriminate | intros [[] _]].
Qed.

(** X3.  [Less] is a strict total order on participant identifiers:
    nothing is less than itself, it is transitive, and of two different
    identifiers exactly one is less than the other. *)
Theorem Less_strict_total_order :
  (forall a, Less a a = false)
  /\ (forall a b c, Less a b = true -> Less b c = true -> Less a c = true)
  /\ (forall a b, a <> b -> Less a b = negb (Less b a)).
Proof.
  split; [|split].
  - intros a. destruct (Less a a) eqn:E; [|reflexivity].
    apply Less_iff in E as [_ H]. now contradiction H.
  - intros a b c [Hab Hne1]%Less_iff [Hbc Hne2]%Less_iff. apply Less_iff. split.
    + now transitivity b.
    + intros ->. apply Hne1. now apply (anti_symm String.le).
  - intros a b Hne. destruct (Less a b) eqn:Eab, (Less b a) eqn:Eba; try reflexivity.
    + apply Less_iff in Eab as [Hab _]. apply Less_iff in Eba as [Hba _].
      contradiction Hne. now apply (anti_symm String.le).
    + apply not_Less_le in Eab. apply not_Less_le in Eba.
      contradiction Hne. now apply (anti_symm String.le).
Qed.

Lemma insert_head_Permutation {A} (l : list A) j b x :
  l !! j = Some b -> b :: <[j := x]> l ≡ₚ x :: l.
Proof.
  revert j. induction l as [|y l IH]; intros [|j] H; simplify_eq/=.
  - apply Permutation_swap.
  - rewrite Permutation_swap, (IH j H). apply Permutation_swap.
Qed.

Lemma insert_insert_Permutation {A} (l : list A) i j a b :
  l !! i = Some a -> l !! j = Some b -> <[j := a]> (<[i := b]> l) ≡ₚ l.
Proof.
  revert i j. induction l as [|x l IH]; intros [|i] [|j] Hi Hj; simplify_eq/=.
  - reflexivity.
  - now apply insert_head_Permutation.
  - now apply insert_head_Permutation.
  - constructor. now apply IH.
Qed.

(** X4.  [Swap] goes through exactly when both indices are below [Len];
    it exchanges the two elements, leaves the others and the length alone,
    keeps the elements as a whole, and undoes itself. *)
Theorem Swap_exchanges :
  forall (n : Nations) (i j : nat),
    (is_Some (Swap n i j) <-> (Z.of_nat i < Len n /\ Z.of_nat j < Len n))
    /\ forall n', Swap n i j = Some n' ->
         n' !! i = n !! j
         /\ n' !! j = n !! i
         /\ (forall k, k <> i -> k <> j -> n' !! k = n !! k)
         /\ Len n' = Len n
         /\ n' ≡ₚ n
         /\ Swap n' i j = Some n.
Proof.
  intros n i j. unfold Swap, Len. unfold Nations in *. split.
  - split.
    + intros [n' H]. destruct (n !! i) eqn:Hi; [|discriminate].
      destruct (n !! j) eqn:Hj; [|discriminate].
      apply lookup_lt_Some in Hi, Hj. lia.
    + intros [Hi Hj].
      destruct (n !! i) eqn:Ei; [|apply lookup_ge_None in Ei; lia].
      destruct (n !! j) eqn:Ej; [|apply lookup_ge_None in Ej; lia]. eauto.
  - intros n'. destruct (n !! i) as [a|] eqn:Hi; [|discriminate].
    destruct (n !! j) as [b|] eqn:Hj; [|discriminate]. intros [= <-].
    pose proof (lookup_lt_Some _ _ _ Hi) as Hli.
    pose proof (lookup_lt_Some _ _ _ Hj) as Hlj.
    assert (<[j:=a]> (<[i:=b]> n) !! i = Some b) as Hi'.
    { destruct (decide (i = j)) as [->|Hne].
      - rewrite list_lookup_insert_eq by (rewrite length_insert; lia). congruence.
      - rewrite list_lookup_insert_ne by congruence.
        now rewrite list_lookup_insert_eq by lia. }
    assert (<[j:=a]> (<[i:=b]> n) !! j = Some a) as Hj'.
    { now rewrite list_lookup_insert_eq by (rewrite length_insert; lia). }
    split; [congruence|]. split; [congruence|]. split; [|split; [|split]].
    + intros k Hki Hkj. now rewrite !list_lookup_insert_ne by congruence.
    + now rewrite !length_insert.
    + now apply insert_insert_Permutation.
    + rewrite Hi', Hj'. f_equal.
      apply list_eq. intros k.
      destruct (decide (k = j)) as [->|Hkj].
      * rewrite list_lookup_insert_eq by (rewrite !length_insert; lia). congruence.
      * rewrite list_lookup_insert_ne by congruence.
        destruct (decide (k = i)) as [->|Hki].
        -- rewrite list_lookup_insert_eq by (rewrite !length_insert; lia). congruence.
        -- now rewrite !list_lookup_insert_ne by congruence.
Qed.

(** ** Channel keys *)

(** X5.  For member lists without commas, two derivations give the same
    key exactly when the games have the same integer id and the lists are
    equal; a key that is derived is a root key of kind [Channel] with a
    string id and no integer id. *)
Theorem ChannelID_keys_tell_channels_apart :
  forall (G1 G2 : option Key) (M1 M2 : Nations) (k1 k2 : Key),
    ChannelID G1 M1 = Ok k1 ->
    ChannelID G2 M2 = Ok k2 ->
    Forall (fun x => contains_byte comma x = false) M1 ->
    Forall (fun x => contains_byte comma x = false) M2 ->
    (k1 = k2 <-> (IntID <$> G1) = (IntID <$> G2) /\ M1 = M2)
    /\ Key_kind k1 = channelKind /\ Parent k1 = None /\ IntID k1 = 0.
Proof.
  intros G1 G2 M1 M2 k1 k2 H1 H2 Hfree1 Hfree2. split; [split|].
  - intros <-. now apply (ChannelID_inj G1 G2 M1 M2 k1).
  - intros [Hid ->]. revert H1 H2. unfold ChannelID.
    destruct G1 as [g1|], G2 as [g2|]; try discriminate.
    injection Hid as Hid. rewrite Hid.
    destruct (_ <? 2); [discriminate|]. destruct (_ =? 0); [discriminate|].
    congruence.
  - destruct (ChannelID_Ok_shape _ _ _ H1) as [Hkind Hparent].
    split; [exact Hkind|]. split; [exact Hparent|].
    revert H1. unfold ChannelID. destruct G1 as [g1|]; [|discriminate].
    destruct (_ <? 2); [discriminate|]. destruct (_ =? 0); [discriminate|].
    now intros [= <-].
Qed.

Lemma ChannelID_keys_tell_channels_apart_witness :
  mkKey channelKind "1:England,France" 0 None
  <> mkKey channelKind "1:England,Germany" 0 None.
Proof.
  intros E.
  destruct (ChannelID_keys_tell_channels_apart
              (Some ex_gameID) (Some ex_gameID)
              ["England"; "France"]%string ["England"; "Germany"]%string
              (mkKey channelKind "1:England,France" 0 None)
              (mkKey channelKind "1:England,Germany" 0 None)) as [[Hsame _] _].
  - vm_compute. reflexivity.
  - vm_compute. reflexivity.
  - repeat constructor.
  - repeat constructor.
  - destruct (Hsame E) as [_ Habs]. discriminate Habs.
Defined.

(** Identifiers that hold commas can make two member lists share a key. *)
Example ChannelID_commas_collide :
  ChannelID (Some ex_gameID) ["a,b"; "c"]%string
  = ChannelID (Some ex_gameID) ["a"; "b,c"]%string.
Proof. vm_compute. reflexivity. Qed.

(** ** Items *)

(** X20.  The item of a channel that has a game and members without commas
    is named after its sorted members and carries one link, whose
    [channel_members] parameter reads back, with [FromString], as the
    sorted members: following the link leads to the key the write path
    stores under.  The channel itself is left with its members sorted. *)
Theorem Channel_Item_link_leads_back :
  forall (Key_Encode : Key -> string) (ListMessagesRoute : string)
         (c : Channel) (gameID : Key),
    Channel_GameID c = Some gameID ->
    Members c <> [] ->
    Forall (fun x => contains_byte comma x = false) (Members c) ->
    exists item c' param,
      Channel_Item Key_Encode ListMessagesRoute c = Some (item, c')
      /\ stored_Channel c'
         = stored_Channel {| Channel_GameID := Channel_GameID c;
                             Members := sort_Sort (Members c);
                             NMessages := NMessages c;
                             Channel_NMessagesSince := Channel_NMessagesSince c |}
      /\ item_name item = Nations_String (sort_Sort (Members c))
      /\ item_links item
         = [{| Rel := "messages"; Route := ListMessagesRoute;
               RouteParams := ["game_id"; Key_Encode gameID;
                               "channel_members"; param] |}]
      /\ FromString param = sort_Sort (Members c)
      /\ ChannelID (Some gameID) (FromString param) = Channel_ID c'.
Proof.
  intros Key_Encode ListMessagesRoute c gameID Hgame Hne Hfree.
  unfold Channel_Item. simpl. rewrite Hgame.
  eexists _, _, _. split; [reflexivity|]. simpl.
  split; [reflexivity|]. split; [reflexivity|]. split; [reflexivity|].
  assert (FromString (Nations_String (sort_Sort (Members c)))
          = sort_Sort (Members c)) as Hback.
  { unfold FromString, Nations_String. rewrite !map_id.
    apply strings_Split_Join.
    - intros Hnil. apply Hne. apply Permutation_nil_r.
      rewrite <- (sort_Sort_Permutation (Members c)), Hnil. reflexivity.
    - now rewrite sort_Sort_Permutation. }
  split; [exact Hback|]. unfold Channel_ID. cbn [Channel_GameID Members].
  rewrite Hback. now rewrite ?Hgame.
Qed.

Lemma Channel_Item_link_leads_back_witness :
  exists item c' param,
    Channel_Item (fun k => pretty (IntID k)) "ListMessages"
      {| Channel_GameID := Some ex_gameID;
         Members := ["France"; "England"]%string; NMessages := 2;
         Channel_NMessagesSince := zero_NMessagesSince |}
    = Some (item, c')
    /\ stored_Channel c'
       = stored_Channel {| Channel_GameID := Some ex_gameID;
                           Members := sort_Sort ["France"; "England"]%string;
                           NMessages := 2;
                           Channel_NMessagesSince := zero_NMessagesSince |}
    /\ item_name item = Nations_String (sort_Sort ["France"; "England"]%string)
    /\ item_links item
       = [{| Rel := "messages"; Route := "ListMessages";
             RouteParams := ["game_id"; pretty (IntID ex_gameID);
                             "channel_members"; param] |}]
    /\ FromString param = sort_Sort ["France"; "England"]%string
    /\ ChannelID (Some ex_gameID) (FromString param) = Channel_ID c'.
Proof.
  apply (Channel_Item_link_leads_back (fun k => pretty (IntID k)) "ListMessages"
           {| Channel_GameID := Some ex_gameID;
              Members := ["France"; "England"]%string; NMessages := 2;
              Channel_NMessagesSince := zero_NMessagesSince |} ex_gameID).
  - reflexivity.
  - discriminate.
  - repeat constructor.
Defined.

(** ** The further properties at work on the example game *)

Lemma pair_with_snd {A B} (p : A * B) (b : B) : p.2 = b -> p = (p.1, b).
Proof. destruct p. simpl. now intros ->. Qed.

Lemma ex_Variants_comma_free variant :
  Forall (fun x => contains_byte comma x = false) (ex_Variants variant).
Proof.
  unfold ex_Variants. destruct (String.eqb variant "Classical");
    repeat constructor.
Qed.

Lemma ex_store_ok : store_ok ex_store.
Proof.
  split.
  - intros k c H%elem_of_map_to_list%list_elem_of_In.
    eassert (map_to_list (channels ex_store) = _) as E
      by (vm_compute; reflexivity).
    rewrite E in H. clear E.
    destruct H as [[= <- <-]|[[= <- <-]|[]]]; split; reflexivity.
  - assert (is_Some (channels ex_store !! ex_EF)) as HEF
      by (eexists; vm_compute; reflexivity).
    assert (is_Some (channels ex_store !! ex_public)) as Hpublic
      by (eexists; vm_compute; reflexivity).
    intros k m H%elem_of_map_to_list%list_elem_of_In.
    eassert (map_to_list (messages ex_store) = _) as E
      by (vm_compute; reflexivity).
    rewrite E in H. clear E.
    destruct H as [[= <- <-]|[[= <- <-]|[[= <- <-]|[]]]];
      eexists _, _; (split; [reflexivity|]); (split; [reflexivity|]);
      assumption.
Qed.

Lemma ex_store_headroom : headroom 2 ex_store.
Proof.
  split; [reflexivity|].
  intros k c H%elem_of_map_to_list%list_elem_of_In.
  eassert (map_to_list (channels ex_store) = _) as E
    by (vm_compute; reflexivity).
  rewrite E in H. clear E.
  destruct H as [[= <- <-]|[[= <- <-]|[]]]; simpl; lia.
Qed.

(** Alice (England) writes to Germany and England. *)
Lemma createMessage_message_fields_witness :
  let r := ex_request "alice" "" ""
             (Ok (["Germany"; "England"]%string, "hello"%string)) in
  let message :=
    {| ID := Some (mkKey messageKind "" 4
                     (Some (mkKey channelKind "1:England,Germany" 0 None)));
       GameID := Some ex_gameID;
       ChannelMembers := ["England"; "Germany"]%string;
       Sender := "England"; Body := "hello"; CreatedAt := 30 |} in
  exists user gameID memberID game member posted body,
    req_user r = Some user
    /\ ex_DecodeKey (req_game_id r) = Ok gameID
    /\ ex_MemberID gameID (Id user) = Ok memberID
    /\ games ex_store !! gameID = Some game
    /\ members ex_store !! memberID = Some member
    /\ req_post r = Ok (posted, body)
    /\ GameID message = Some gameID
    /\ Sender message = Member_Nation member
    /\ Body message = body
    /\ CreatedAt message = req_now r
    /\ ChannelMembers message = sort_Sort posted
    /\ Sorted String.le (ChannelMembers message)
    /\ (2 <= length posted)%nat
    /\ IntID gameID <> 0.
Proof.
  intros r message.
  apply (createMessage_message_fields ex_Variants ex_DecodeKey ex_MemberID
           no_faults ex_store r
           (createMessage ex_Variants ex_DecodeKey ex_MemberID no_faults
              ex_store r).1 message).
  apply pair_with_snd. vm_compute. reflexivity.
Defined.

(** The same destination set, posted in two orders. *)
Lemma createMessage_posted_order_irrelevant_witness :
  createMessage ex_Variants ex_DecodeKey ex_MemberID no_faults ex_store
    (with_post (ex_request "alice" "" "" (Err ErrNoSuchEntity))
       (Ok (["France"; "England"]%string, "again"%string)))
  = createMessage ex_Variants ex_DecodeKey ex_MemberID no_faults ex_store
      (with_post (ex_request "alice" "" "" (Err ErrNoSuchEntity))
         (Ok (["England"; "France"]%string, "again"%string))).
Proof.
  apply createMessage_posted_order_irrelevant. apply Permutation_swap.
Defined.

(** Alice and Bob each write to England and Germany, a channel the example
    store does not have: afterwards its counter and the number of its
    messages both are the number of deliveries. *)
Lemma createMessages_counter_exact_witness :
  let EG := mkKey channelKind "1:England,Germany" 0 None in
  let rs := [ex_request "alice" "" ""
               (Ok (["Germany"; "England"]%string, "hello"%string));
             ex_request "bob" "" ""
               (Ok (["England"; "Germany"]%string, "hallo"%string))] in
  deliveries ex_Variants ex_DecodeKey ex_MemberID no_faults ex_store rs EG = 2%nat
  /\ owned_count
       (createMessages ex_Variants ex_DecodeKey ex_MemberID no_faults ex_store rs)
       EG
     = deliveries ex_Variants ex_DecodeKey ex_MemberID no_faults ex_store rs EG
  /\ exists c,
       channels
         (createMessages ex_Variants ex_DecodeKey ex_MemberID no_faults
            ex_store rs) !! EG = Some c
       /\ NMessages c
          = Z.of_nat (deliveries ex_Variants ex_DecodeKey ex_MemberID no_faults
                        ex_store rs EG).
Proof.
  intros EG rs.
  assert (deliveries ex_Variants ex_DecodeKey ex_MemberID no_faults ex_store
            rs EG = 2%nat) as Hn by (vm_compute; reflexivity).
  split; [exact Hn|].
  apply (createMessages_counter_exact ex_Variants ex_DecodeKey ex_MemberID
           no_faults rs ex_store EG).
  - reflexivity.
  - exact ex_store_ok.
  - exact ex_store_headroom.
  - exact ex_store_counters_match.
  - reflexivity.
  - reflexivity.
  - vm_compute. reflexivity.
  - rewrite Hn. lia.
Defined.

(** Alice writes once more to England and France. *)
Lemma createMessage_keeps_store_in_order_witness :
  let st' :=
    (createMessage ex_Variants ex_DecodeKey ex_MemberID no_faults ex_store
       (ex_request "alice" "" ""
          (Ok (["France"; "England"]%string, "again"%string)))).1 in
  store_ok st' /\ counters_match st' /\ channels_keyed st'
  /\ headroom 1 st'.
Proof.
  apply (createMessage_keeps_store_in_order ex_Variants ex_DecodeKey
           ex_MemberID no_faults ex_store).
  - reflexivity.
  - exact ex_Variants_comma_free.
  - exact ex_store_ok.
  - exact ex_store_counters_match.
  - exact ex_store_channels_keyed.
  - exact ex_store_headroom.
Defined.

(** Alice reads the channel of England and France. *)
Lemma listMessages_content_only_for_channels_witness :
  let r := ex_request "alice" "England,France" "" (Err ErrNoSuchEntity) in
  let messages_ :=
    [ex_message ["England"; "France"]%string "France" "salut" 20;
     ex_message ["England"; "France"]%string "England" "hello" 10] in
  is_Some (req_user r)
  /\ (exists gameID, ex_DecodeKey (req_game_id r) = Ok gameID /\ IntID gameID <> 0)
  /\ (1 <= count_byte comma (req_channel_members r))%nat
  /\ (2 <= length ["England"; "France"]%string)%nat
  /\ ["England"; "France"]%string ≡ₚ FromString (req_channel_members r)
  /\ StronglySorted newer_first messages_.
Proof.
  intros r messages_.
  apply (listMessages_content_only_for_channels ex_Variants ex_DecodeKey
           ex_MemberID ex_time_Parse no_faults ex_store r).
  vm_compute. reflexivity.
Defined.

(** Olga, an observer, names the members of the public channel in the
    order of the registry. *)
Lemma listMessages_public_in_any_order_witness :
  listMessages ex_Variants ex_DecodeKey ex_MemberID ex_time_Parse no_faults
    ex_store
    (ex_request "olga" "Austria,England,France,Germany,Italy,Turkey,Russia" ""
       (Err ErrNoSuchEntity))
  = (try channelID <- ChannelID (Some ex_gameID)
                        (publicChannel ex_Variants "Classical");
     try messages_ <- datastore_GetAll_messages no_faults ex_store channelID None;
     Content (messages_, publicChannel ex_Variants "Classical")).
Proof.
  apply (listMessages_public_in_any_order ex_Variants ex_DecodeKey ex_MemberID
           ex_time_Parse no_faults ex_store _ ex_gameID None ""%string
           {| Variant := "Classical" |}).
  - exists {| Id := "olga" |}, (mkKey "Member" "olga" 0 (Some ex_gameID)).
    repeat split; vm_compute; reflexivity.
  - vm_compute. reflexivity.
  - vm_compute. reflexivity.
Defined.

(** Alice writes to Germany and England; Bob then reads that channel. *)
Lemma createMessage_then_listMessages_witness :
  let r := ex_request "alice" "" ""
             (Ok (["Germany"; "England"]%string, "hello"%string)) in
  let message :=
    {| ID := Some (mkKey messageKind "" 4
                     (Some (mkKey channelKind "1:England,Germany" 0 None)));
       GameID := Some ex_gameID;
       ChannelMembers := ["England"; "Germany"]%string;
       Sender := "England"; Body := "hello"; CreatedAt := 30 |} in
  let st' := (createMessage ex_Variants ex_DecodeKey ex_MemberID no_faults
                ex_store r).1 in
  exists messages_,
    listMessages ex_Variants ex_DecodeKey ex_MemberID ex_time_Parse no_faults
      st' (ex_request "bob" "England,Germany" "" (Err ErrNoSuchEntity))
    = Content (messages_, ChannelMembers message)
    /\ stored_Message message ∈ messages_.
Proof.
  intros r message st'.
  apply (createMessage_then_listMessages ex_Variants ex_DecodeKey ex_MemberID
           ex_time_Parse no_faults ex_store r st' message
           (ex_request "bob" "England,Germany" "" (Err ErrNoSuchEntity))
           ex_gameID None "Germany"%string {| Variant := "Classical" |}).
  - apply pair_with_snd. vm_compute. reflexivity.
  - exists {| Id := "bob" |}, (mkKey "Member" "bob" 0 (Some ex_gameID)).
    repeat split; vm_compute; reflexivity.
  - reflexivity.
  - vm_compute. reflexivity.
  - vm_compute. reflexivity.
  - exact I.
  - reflexivity.
Defined.

(** Alice lists her channels with their counts since instant 15. *)
Lemma listChannels_delta_within_total_witness :
  let shown :=
    [{| Channel_GameID := Some ex_gameID;
        Members := sort_Sort classical; NMessages := 1;
        Channel_NMessagesSince := {| Since := 15; Since_NMessages := 0 |} |};
     {| Channel_GameID := Some ex_gameID;
        Members := ["England"; "France"]%string; NMessages := 2;
        Channel_NMessagesSince := {| Since := 15; Since_NMessages := 1 |} |}] in
  length shown = 2%nat
  /\ forall c, c ∈ shown ->
       Since (Channel_NMessagesSince c) = 15
       /\ 0 <= Since_NMessages (Channel_NMessagesSince c) <= NMessages c.
Proof.
  intros shown.
  apply (listChannels_delta_within_total ex_Variants ex_DecodeKey ex_MemberID
           ex_time_Parse no_faults [1; 0]%nat ex_store
           (ex_request "alice" "" "1970-01-01T00:00:15Z" (Err ErrNoSuchEntity))
           ex_gameID 15 "England"%string {| Variant := "Classical" |}
           [ {| Channel_GameID := Some ex_gameID;
                Members := sort_Sort classical; NMessages := 1;
                Channel_NMessagesSince := zero_NMessagesSince |};
             {| Channel_GameID := Some ex_gameID;
                Members := ["England"; "France"]%string; NMessages := 2;
                Channel_NMessagesSince := zero_NMessagesSince |} ]
           shown).
  - exists {| Id := "alice" |}, (mkKey "Member" "alice" 0 (Some ex_gameID)).
    repeat split; vm_compute; reflexivity.
  - vm_compute. reflexivity.
  - apply Permutation_swap.
  - exact ex_store_counters_match.
  - exact ex_store_channels_keyed.
  - vm_compute. reflexivity.
Defined.

(** Carol (France) lists her channels. *)
Lemma listChannels_player_sees_own_channels_witness :
  exists shown,
    listChannels ex_Variants ex_DecodeKey ex_MemberID ex_time_Parse no_faults
      [] ex_store (ex_request "carol" "" "" (Err ErrNoSuchEntity))
    = Content shown
    /\ forall c, c ∈ shown <->
         exists k c0,
           channels ex_store !! k = Some c0
           /\ Channel_GameID c0 = Some ex_gameID
           /\ "France"%string ∈ Members c0
           /\ c = {| Channel_GameID := Channel_GameID c0; Members := Members c0;
                     NMessages := NMessages c0;
                     Channel_NMessagesSince :=
                       {| Since := Since (Channel_NMessagesSince c0);
                          Since_NMessages := NMessages c0 |} |}.
Proof.
  apply (listChannels_player_sees_own_channels ex_Variants ex_DecodeKey
           ex_MemberID ex_time_Parse no_faults [] ex_store
           (ex_request "carol" "" "" (Err ErrNoSuchEntity))
           ex_gameID "France"%string {| Variant := "Classical" |}).
  - exists {| Id := "carol" |}, (mkKey "Member" "carol" 0 (Some ex_gameID)).
    repeat split; vm_compute; reflexivity.
  - discriminate.
  - reflexivity.
Defined.

(** Alice calls the handlers on a store that has lost the game record. *)
Lemma handlers_need_the_game_witness :
  let r := ex_request "alice" "England,France" ""
             (Ok (["France"; "England"]%string, "again"%string)) in
  listMessages ex_Variants ex_DecodeKey ex_MemberID ex_time_Parse no_faults
    ex_store_without_game r = Failed ErrNoSuchEntity
  /\ listChannels ex_Variants ex_DecodeKey ex_MemberID ex_time_Parse no_faults
       [] ex_store_without_game r = Failed ErrNoSuchEntity
  /\ exists e1,
       createMessage ex_Variants ex_DecodeKey ex_MemberID no_faults
         ex_store_without_game r
       = (ex_store_without_game,
          Failed (MultiError [Some ErrNoSuchEntity; e1])).
Proof.
  intros r.
  apply (handlers_need_the_game ex_Variants ex_DecodeKey ex_MemberID
           ex_time_Parse no_faults [] ex_store_without_game r
           {| Id := "alice" |} ex_gameID
           (mkKey "Member" "alice" 0 (Some ex_gameID)) None);
    try reflexivity.
Defined.

(** Alice asks with a cut-off that is no RFC 3339 instant. *)
Lemma listings_reject_malformed_since_witness :
  listMessages ex_Variants ex_DecodeKey ex_MemberID ex_time_Parse no_faults
    ex_store
    (ex_request "alice" "England,France" "yesterday" (Err ErrNoSuchEntity))
  = Failed (Errorf "parsing time: cannot parse")
  /\ listChannels ex_Variants ex_DecodeKey ex_MemberID ex_time_Parse no_faults
       [] ex_store
       (ex_request "alice" "England,France" "yesterday" (Err ErrNoSuchEntity))
     = Failed (Errorf "parsing time: cannot parse").
Proof.
  apply (listings_reject_malformed_since ex_Variants ex_DecodeKey ex_MemberID
           ex_time_Parse
           (ex_request "alice" "England,France" "yesterday" (Err ErrNoSuchEntity))
           {| Id := "alice" |} ex_gameID
           (mkKey "Member" "alice" 0 (Some ex_gameID))).
  - reflexivity.
  - reflexivity.
  - reflexivity.
  - discriminate.
  - reflexivity.
Defined.
